(** * scraper-app: the scrape orchestration of [server.js]

    A shallow embedding of the run controller ([scrapeWebsites]), the site
    prober ([scrapeEmails]), the contact-page fallback
    ([scrapeContactPages]) and the two writers ([writeEmailToCSV],
    [writeNotFoundDomain]) of [src/server.js], with the properties the
    specification states about them.

    Conventions of the embedding:
    - a JavaScript string is a [string]; each [ascii] stands for one code
      unit below 256, so the white space [trim] removes is the part of
      ECMAScript's WhiteSpace and LineTerminator sets in that range;
    - a row read by csv-parser is a JavaScript object used as a map: a
      [gmap string string], a missing key reading as [undefined] ([None]);
    - asynchronous code runs on one event loop: it is a state-and-exception
      monad over the process state [World]; what the outside does (pages,
      the URL parser, stop requests) enters through explicit oracles. *)

From Stdlib Require Import String Ascii List Arith Lia Bool.
From stdpp Require Import base option list strings pretty gmap.
Import ListNotations.
Local Open Scope string_scope.
Local Open Scope list_scope.

(** ** Strings as [server.js] uses them *)

Module Str.

(** Code units that [String.prototype.trim] strips, below 256:
    TAB, LF, VT, FF, CR, SPACE and NO-BREAK SPACE. *)
Definition is_space (c : ascii) : bool :=
  match nat_of_ascii c with
  | 9 | 10 | 11 | 12 | 13 | 32 | 160 => true
  | _ => false
  end.

Fixpoint trimStart (s : string) : string :=
  match s with
  | EmptyString => EmptyString
  | String c rest => if is_space c then trimStart rest else s
  end.

(** [trimEnd] drops the white space at the end: a character is kept
    unless it is white space and everything after it was dropped too. *)
Fixpoint trimEnd (s : string) : string :=
  match s with
  | EmptyString => EmptyString
  | String c rest =>
      match trimEnd rest with
      | EmptyString => if is_space c then EmptyString else String c EmptyString
      | kept => String c kept
      end
  end.

Definition trim (s : string) : string := trimEnd (trimStart s).

(** [s.split(sep)] for a separator of one code unit: the pieces between
    the occurrences of [sep], never an empty array. *)
Fixpoint split (sep : ascii) (s : string) : list string :=
  match s with
  | EmptyString => [EmptyString]
  | String c rest =>
      if Ascii.eqb c sep then EmptyString :: split sep rest
      else match split sep rest with
           | piece :: pieces => String c piece :: pieces
           | [] => [String c EmptyString]
           end
  end.

(** [s.includes(c)] for a pattern of one code unit. *)
Fixpoint includes (c : ascii) (s : string) : bool :=
  match s with
  | EmptyString => false
  | String d rest => Ascii.eqb d c || includes c rest
  end.

Fixpoint drop (n : nat) (s : string) : string :=
  match n, s with
  | O, _ => s
  | S _, EmptyString => EmptyString
  | S n', String _ rest => drop n' rest
  end.

(** [s.replace(pat, rep)] with a string pattern: only the first
    occurrence of [pat], wherever it is, is replaced. *)
Fixpoint replace (pat rep s : string) : string :=
  if String.prefix pat s then rep +:+ drop (String.length pat) s
  else match s with
       | EmptyString => EmptyString
       | String c rest => String c (replace pat rep rest)
       end.

(** [pat] occurs somewhere in [s]. *)
Fixpoint occurs (pat s : string) : bool :=
  String.prefix pat s ||
  match s with
  | EmptyString => false
  | String _ rest => occurs pat rest
  end.

(** All characters of [s] are white space. *)
Fixpoint all_space (s : string) : bool :=
  match s with
  | EmptyString => true
  | String c rest => is_space c && all_space rest
  end.

Definition first_char (s : string) : option ascii :=
  match s with
  | EmptyString => None
  | String c _ => Some c
  end.

Fixpoint last_char (s : string) : option ascii :=
  match s with
  | EmptyString => None
  | String c rest =>
      match last_char rest with
      | Some d => Some d
      | None => Some c
      end
  end.

End Str.

(** [cleanEmail], line 69: [email.split("?")[0].trim()]. An array always
    has the element [0] here, [split] returning at least one piece. *)
Definition cleanEmail (email : string) : string :=
  match Str.split "?" email with
  | piece :: _ => Str.trim piece
  | [] => EmptyString
  end.

(** ** The data of a run *)

(** One row of the input, as csv-parser yields it: header name to cell. *)
Abbreviation CsvRecord := (gmap string string).

(** The object built for one matched address (lines 75 to 83): its keys in
    insertion order, a key whose value is [undefined] carrying [None]. *)
Definition OutRow : Type := list (string * option string).

(** What a file holds: the pieces written to it, in order. The text of a
    CSV piece is csv-stringify's business; the file keeps the rows that
    were handed to [stringify(rows, { header: false })]. *)
Inductive Chunk : Type :=
| Text (s : string)
| Csv (rows : list OutRow).

(** A WebSocket client of the progress channel. *)
Record Client : Type := mkClient {
  readyState : nat;
  received : list string
}.

(** Calls made on the puppeteer browser and its pages. *)
Inductive BrowserOp : Type :=
| NewPage
| SetUserAgent (ua : string)
| Goto (url : string)
| Evaluate
| ClosePage
| CloseBrowser.

(** What one page does when it is driven: which awaited calls reject, and
    the [href] of every anchor matching [a[href^='mailto:']] once loaded
    ([None]: [page.evaluate] rejects). *)
Record Page : Type := mkPage {
  newPage_ok : bool;
  setUserAgent_ok : bool;
  goto_ok : bool;
  mailto_hrefs : option (list string);
  close_ok : bool
}.

Inductive Err : Type :=
| InvalidURL (input : string)
| BrowserError (op : BrowserOp).

(** The process state: the module-level variables of [server.js]
    ([isScraping], [lastOutputFile], [lastNotFoundFile], [clients]), the
    file system, and two logs kept for the statements: the messages handed
    to [sendProgress] and the URLs handed to [scrapeEmails]. *)
Record World : Type := mkWorld {
  isScraping : bool;
  lastOutputFile : string;
  lastNotFoundFile : string;
  fs : gmap string (list Chunk);
  clients : list Client;
  published : list string;
  probes : list string;
  browser_ops : list BrowserOp
}.

Definition set_isScraping (b : bool) (w : World) : World :=
  mkWorld b (lastOutputFile w) (lastNotFoundFile w) (fs w) (clients w)
          (published w) (probes w) (browser_ops w).

Definition set_lastOutputFile (p : string) (w : World) : World :=
  mkWorld (isScraping w) p (lastNotFoundFile w) (fs w) (clients w)
          (published w) (probes w) (browser_ops w).

Definition set_lastNotFoundFile (p : string) (w : World) : World :=
  mkWorld (isScraping w) (lastOutputFile w) p (fs w) (clients w)
          (published w) (probes w) (browser_ops w).

Definition set_fs (f : gmap string (list Chunk)) (w : World) : World :=
  mkWorld (isScraping w) (lastOutputFile w) (lastNotFoundFile w) f (clients w)
          (published w) (probes w) (browser_ops w).

Definition set_progress (cs : list Client) (msgs : list string) (w : World) : World :=
  mkWorld (isScraping w) (lastOutputFile w) (lastNotFoundFile w) (fs w) cs
          msgs (probes w) (browser_ops w).

Definition set_probes (ps : list string) (w : World) : World :=
  mkWorld (isScraping w) (lastOutputFile w) (lastNotFoundFile w) (fs w) (clients w)
          (published w) ps (browser_ops w).

Definition set_browser_ops (ops : list BrowserOp) (w : World) : World :=
  mkWorld (isScraping w) (lastOutputFile w) (lastNotFoundFile w) (fs w) (clients w)
          (published w) (probes w) ops.

(** ** Awaited code: state and exceptions *)

Inductive Result (A : Type) : Type :=
| Ok (a : A)
| Throw (e : Err).
Arguments Ok {A} a.
Arguments Throw {A} e.

Definition M (A : Type) : Type := World -> Result A * World.

#[global] Instance M_ret : MRet M := fun A a w => (Ok a, w).

#[global] Instance M_bind : MBind M := fun A B f m w =>
  match m w with
  | (Ok a, w') => f a w'
  | (Throw e, w') => (Throw e, w')
  end.

Definition throw {A : Type} (e : Err) : M A := fun w => (Throw e, w).

(** [try { body } catch (e) { handler }] *)
Definition try_catch {A : Type} (body : M A) (handler : Err -> M A) : M A :=
  fun w =>
    match body w with
    | (Ok a, w') => (Ok a, w')
    | (Throw e, w') => handler e w'
    end.

Definition gets {A : Type} (f : World -> A) : M A := fun w => (Ok (f w), w).

Definition modify (f : World -> World) : M unit := fun w => (Ok tt, f w).

(** ** Progress broadcast *)

(** [sendProgress], lines 48 to 54: every client whose socket is open
    ([readyState === 1]) is sent the JSON object holding [message]. *)
Definition deliver (message : string) (c : Client) : Client :=
  if Nat.eqb (readyState c) 1
  then mkClient (readyState c) (received c ++ [message])
  else c.

Definition sendProgress (message : string) : M unit :=
  modify (fun w => set_progress (deliver message <$> clients w)
                                (published w ++ [message]) w).

(** ** Output files *)

(** [fs.writeFileSync(path, text)]: the file holds [text] and nothing else. *)
Definition writeFileSync (path text : string) : M unit :=
  modify (fun w => set_fs (<[path := [Text text]]> (fs w)) w).

(** [fs.appendFileSync(path, data)]: created when it does not exist. *)
Definition appendFileSync (path : string) (data : Chunk) : M unit :=
  modify (fun w => set_fs (<[path := default [] (fs w !! path) ++ [data]]> (fs w)) w).

(** [value || "No"]: [undefined] and the empty string are falsy. *)
Definition or_else (value : option string) (fallback : string) : string :=
  match value with
  | None | Some EmptyString => fallback
  | Some v => v
  end.

(** The row object of lines 75 to 83. *)
Definition csvRow (record : CsvRecord) (email : string) : OutRow :=
  [ ("Business Name", record !! "Business Name");
    ("Category", record !! "Category");
    ("Address", Some (or_else (record !! "Address") "No"));
    ("Postal Code", record !! "Postal Code");
    ("Phone Number", record !! "Phone Number");
    ("Website", record !! "Website");
    ("Email", Some email) ].

(** Line 73. *)
Definition cleanedEmails (emails : list string) : list string :=
  List.filter (Str.includes "@") (cleanEmail <$> emails).

(** [writeEmailToCSV], lines 72 to 88. *)
Definition writeEmailToCSV (filePath : string) (record : CsvRecord)
    (emails : list string) : M unit :=
  let cleaned := cleanedEmails emails in
  if Nat.ltb 0 (length cleaned)
  then appendFileSync filePath (Csv (csvRow record <$> cleaned))
  else mret tt.

(** [writeNotFoundDomain], lines 91 to 93. *)
Definition writeNotFoundDomain (filePath domain : string) : M unit :=
  appendFileSync filePath (Text (domain +:+ String "010" EmptyString)).

(** ** The outside of the process *)

(** What the program does not decide: the pages of the web ([web n url] is
    the page met by the probe of [url] made after [n] earlier probes), the
    platform's URL class ([url_hostname s] is [new URL(s).hostname],
    [url_href path base] is [new URL(path, base).href], [None] where the
    constructor throws its TypeError), and the directory of the outputs. *)
Record Env : Type := mkEnv {
  web : nat -> string -> Page;
  url_hostname : string -> option string;
  url_href : string -> string -> option string;
  downloadDir : string
}.

(** Stop requests ([POST /stop]) are served while the run is suspended at
    an [await]. The flag they clear is read at the head of the loop only,
    so a request served while record [i] is in flight, the record then
    returning, acts as one served between records [i] and [i + 1]:
    [stop_after i]. A record skipped as blank awaits nothing; a request
    placed after it acts as one served just before it, the record leaving
    no trace either way. [stop_at_launch] is a request served while the
    input is read and the browser is launched. A request served inside a
    record that throws afterwards is outside these schedules. *)
Record Schedule : Type := mkSchedule {
  stop_at_launch : bool;
  stop_after : nat -> bool
}.

Definition never_stop : Schedule := mkSchedule false (fun _ => false).

(** [[...new Set(xs)]]: the distinct elements in order of first occurrence. *)
Fixpoint spread_set (seen xs : list string) : list string :=
  match xs with
  | [] => []
  | x :: rest =>
      if bool_decide (x ∈ seen) then spread_set seen rest
      else x :: spread_set (x :: seen) rest
  end.

(** Line 111, run inside the page for every matching anchor. *)
Definition mailto_address (href : string) : string :=
  Str.trim (Str.replace "mailto:" "" href).

Definition userAgent : string := "Mozilla/5.0 ... Safari/537.36".

Definition header : string :=
  "Business Name,Category,Address,Postal Code,Phone Number,Website,Email"
  +:+ String "010" EmptyString.

Definition contactPaths : list string :=
  [ "/contact"; "/contactus"; "/contact-us"; "/support"; "/help";
    "/customer-service"; "/get-in-touch"; "/reach-us"; "/about"; "/about-us" ].

(** [iso.replace(/[:.]/g, "-")], line 146. *)
Fixpoint dashes (iso : string) : string :=
  match iso with
  | EmptyString => EmptyString
  | String c rest =>
      String (if Ascii.eqb c ":" || Ascii.eqb c "." then "-"%char else c) (dashes rest)
  end.

Definition path_join (dir name : string) : string := dir +:+ "/" +:+ name.

Section Run.

Variable E : Env.

(** An awaited call on the browser: logged, then it resolves or rejects. *)
Definition browser_call (op : BrowserOp) (ok : bool) : M unit :=
  modify (fun w => set_browser_ops (browser_ops w ++ [op]) w);;
  if ok then mret tt else throw (BrowserError op).

(** [page.evaluate(...)], lines 109 to 112. *)
Definition evaluate (page : Page) : M (list string) :=
  modify (fun w => set_browser_ops (browser_ops w ++ [Evaluate]) w);;
  match mailto_hrefs page with
  | Some hrefs => mret (mailto_address <$> hrefs)
  | None => throw (BrowserError Evaluate)
  end.

(** The page this probe meets; the call is logged. *)
Definition begin_probe (url : string) : M Page :=
  fun w => (Ok (web E (length (probes w)) url), set_probes (probes w ++ [url]) w).

(** [scrapeEmails], lines 96 to 121. The local [emails] is [[]] until
    line 114 assigns it, and the outer handler returns whatever it holds:
    [[]] for a rejection before line 114 (also one of [page.close()] in
    the inner handler, line 105), the assigned list for the rejection of
    [page.close()] on line 116. Console output is not modelled. *)
Definition scrapeEmails (url : string) : M (list string) :=
  page ← begin_probe url;
  try_catch
    (browser_call NewPage (newPage_ok page);;
     browser_call (SetUserAgent userAgent) (setUserAgent_ok page);;
     loaded ← try_catch (browser_call (Goto url) (goto_ok page);; mret true)
                        (fun _ => mret false);
     if loaded : bool then
       mailtoEmails ← evaluate page;
       let emails := spread_set [] mailtoEmails in
       try_catch (browser_call ClosePage (close_ok page);; mret emails)
                 (fun _ => mret emails)
     else
       browser_call ClosePage (close_ok page);;
       mret [])
    (fun _ => mret []).

(** [new URL(path, mainUrl).href], line 131. *)
Definition new_URL_href (path base : string) : M string :=
  match url_href E path base with
  | Some href => mret href
  | None => throw (InvalidURL base)
  end.

(** The loop of lines 130 to 134 over the paths still to try. *)
Fixpoint scrapeContactPaths (paths : list string) (mainUrl : string)
  : M (list string) :=
  match paths with
  | [] => mret []
  | path :: rest =>
      href ← new_URL_href path mainUrl;
      emails ← scrapeEmails href;
      if Nat.ltb 0 (length emails) then mret emails
      else scrapeContactPaths rest mainUrl
  end.

(** [scrapeContactPages], lines 124 to 135. *)
Definition scrapeContactPages (mainUrl : string) : M (list string) :=
  scrapeContactPaths contactPaths mainUrl.

(** [new URL(site).hostname], line 158. *)
Definition new_URL_hostname (site : string) : M string :=
  match url_hostname E site with
  | Some host => mret host
  | None => throw (InvalidURL site)
  end.

(** The message of line 159. *)
Definition progress_line (site : string) (i total : nat) : string :=
  "Scraping: " +:+ site +:+ " (" +:+ pretty (i + 1) +:+ "/" +:+ pretty total +:+ ")".

(** Lines 161 and 162: the main page, then the contact pages. *)
Definition probe_site (site : string) : M (list string) :=
  emails ← scrapeEmails site;
  if Nat.ltb 0 (length emails) then mret emails else scrapeContactPages site.

(** Lines 164 to 168. *)
Definition classify (record : CsvRecord) (domain : string)
    (emails : list string) : M unit :=
  if Nat.ltb 0 (length emails)
  then out ← gets lastOutputFile; writeEmailToCSV out record emails
  else out ← gets lastNotFoundFile; writeNotFoundDomain out domain.

(** [record["Website"]?.trim()], line 155. *)
Definition site_of (record : CsvRecord) : option string :=
  Str.trim <$> (record !! "Website").

(** The body of the loop after the test of the flag, lines 154 to 168,
    for record [i] of [total]. *)
Definition process_record (total i : nat) (record : CsvRecord) : M unit :=
  match site_of record with
  | None | Some EmptyString => mret tt
  | Some site =>
      host ← new_URL_hostname site;
      let domain := Str.replace "www." "" host in
      sendProgress (progress_line site i total);;
      emails ← probe_site site;
      classify record domain emails
  end.

(** The handler of [POST /stop], lines 187 to 191. *)
Definition stopHandler : M unit :=
  modify (set_isScraping false);;
  sendProgress "Scraping stopped by user.".

Definition serve_stop (requested : bool) : M unit :=
  if requested then stopHandler else mret tt.

(** The loop of lines 151 to 169 from index [i], [rest] being
    [websites.slice(i)] and [total] being [websites.length]. *)
Fixpoint websites_loop (sched : Schedule) (total i : nat)
    (rest : list CsvRecord) : M unit :=
  match rest with
  | [] => mret tt
  | record :: rest' =>
      active ← gets isScraping;
      if negb active then mret tt
      else
        process_record total i record;;
        serve_stop (stop_after sched i);;
        websites_loop sched total (S i) rest'
  end.

(** [scrapeWebsites], lines 138 to 174, on the rows [websites] read from
    the input at a time whose ISO form is [iso]. Reading the input and
    launching and closing the browser are taken to succeed. *)
Definition scrapeWebsites (sched : Schedule) (iso : string)
    (websites : list CsvRecord) : M unit :=
  modify (set_isScraping true);;
  serve_stop (stop_at_launch sched);;
  let timestamp := dashes iso in
  modify (set_lastOutputFile
            (path_join (downloadDir E) ("Emails_" +:+ timestamp +:+ ".csv")));;
  modify (set_lastNotFoundFile
            (path_join (downloadDir E) ("Notfound_" +:+ timestamp +:+ ".txt")));;
  out ← gets lastOutputFile;
  writeFileSync out header;;
  websites_loop sched (length websites) 0 websites;;
  browser_call CloseBrowser true;;
  modify (set_isScraping false);;
  sendProgress "Scraping complete.".

End Run.

(** ** Reading the state *)

(** The pieces of the file at [path], none when it does not exist. *)
Definition file (w : World) (path : string) : list Chunk :=
  default [] (fs w !! path).

(** The CSV rows of a file, in the order they were appended. *)
Fixpoint rows_of (chunks : list Chunk) : list OutRow :=
  match chunks with
  | [] => []
  | Csv rows :: rest => rows ++ rows_of rest
  | Text _ :: rest => rows_of rest
  end.

(** The pieces of text of a file. *)
Fixpoint texts_of (chunks : list Chunk) : list string :=
  match chunks with
  | [] => []
  | Text s :: rest => s :: texts_of rest
  | Csv _ :: rest => texts_of rest
  end.

(** The value of column [key] in a row. *)
Fixpoint field (key : string) (row : OutRow) : option string :=
  match row with
  | [] => None
  | (k, v) :: rest => if String.eqb k key then v else field key rest
  end.

Definition columns : list string :=
  [ "Business Name"; "Category"; "Address"; "Postal Code"; "Phone Number";
    "Website"; "Email" ].

Definition line (s : string) : string := s +:+ String "010" EmptyString.

(** The specification's words for an accepted address: [address] is what
    precedes the first [?] of [extracted], without the white space around
    it. *)
Definition before_query_trimmed (extracted address : string) : Prop :=
  exists before after l r : string,
    extracted = before +:+ after /\
    Str.includes "?" before = false /\
    (after = EmptyString \/ Str.first_char after = Some "?"%char) /\
    before = l +:+ address +:+ r /\
    Str.all_space l = true /\ Str.all_space r = true /\
    (forall c, Str.first_char address = Some c -> Str.is_space c = false) /\
    (forall c, Str.last_char address = Some c -> Str.is_space c = false).

(** What a probe returns on a page, read off the page's behaviour:
    addresses only when the page opens, takes the user agent, loads and
    evaluates. *)
Definition probe_result (page : Page) : list string :=
  if newPage_ok page && setUserAgent_ok page && goto_ok page
  then match mailto_hrefs page with
       | Some hrefs => spread_set [] (mailto_address <$> hrefs)
       | None => []
       end
  else [].

(** The browser calls a probe of [url] issues on a page. *)
Definition probe_ops (page : Page) (url : string) : list BrowserOp :=
  NewPage ::
  if newPage_ok page then
    SetUserAgent userAgent ::
    if setUserAgent_ok page then
      Goto url ::
      if goto_ok page then
        Evaluate :: match mailto_hrefs page with
                    | Some _ => [ClosePage]
                    | None => []
                    end
      else [ClosePage]
    else []
  else [].

(** [w'] is [w] after some probing: only the two logs grew. *)
Definition probed (w w' : World) (urls : list string) (ops : list BrowserOp) : Prop :=
  w' = set_browser_ops (browser_ops w ++ ops) (set_probes (probes w ++ urls) w).

(** The specification's words for the fallback: the first non-empty
    result wins; the number of results looked at comes with it. *)
Fixpoint first_success (results : list (list string)) : nat * list string :=
  match results with
  | [] => (0, [])
  | r :: rest =>
      match r with
      | _ :: _ => (1, r)
      | [] => let (n, emails) := first_success rest in (S n, emails)
      end
  end.

(** The results of probing [hrefs] one after the other, the first probe
    being the one made after [n] earlier ones. *)
Fixpoint results_from (E : Env) (n : nat) (hrefs : list string) : list (list string) :=
  match hrefs with
  | [] => []
  | href :: rest => probe_result (web E n href) :: results_from E (S n) rest
  end.

(** What a matched row keeps of its record, as the code has it: the
    columns of the header in its order, five cells as read, and the
    Address as read unless it is missing or empty, then ["No"]. *)
Definition keeps_metadata (record : CsvRecord) (row : OutRow) : Prop :=
  row.*1 = columns /\
  field "Business Name" row = record !! "Business Name" /\
  field "Category" row = record !! "Category" /\
  field "Postal Code" row = record !! "Postal Code" /\
  field "Phone Number" row = record !! "Phone Number" /\
  field "Website" row = record !! "Website" /\
  (forall address, record !! "Address" = Some address ->
     address <> EmptyString -> field "Address" row = Some address) /\
  (record !! "Address" = None \/ record !! "Address" = Some EmptyString ->
     field "Address" row = Some "No").

(** Two states that differ at most in the progress channel. *)
Definition same_core (w1 w2 : World) : Prop :=
  isScraping w1 = isScraping w2 /\
  lastOutputFile w1 = lastOutputFile w2 /\
  lastNotFoundFile w1 = lastNotFoundFile w2 /\
  fs w1 = fs w2 /\ probes w1 = probes w2 /\ browser_ops w1 = browser_ops w2.

(** Two states with the same outputs and the same probing done. *)
Definition same_outputs (w1 w2 : World) : Prop :=
  lastOutputFile w1 = lastOutputFile w2 /\
  lastNotFoundFile w1 = lastNotFoundFile w2 /\
  fs w1 = fs w2 /\ probes w1 = probes w2 /\ browser_ops w1 = browser_ops w2.

(** Two computations that, from states with the same core, end alike and
    in states with the same core: they may differ in what they publish. *)
Definition alike {A : Type} (m1 m2 : M A) : Prop :=
  forall w1 w2, same_core w1 w2 ->
    (m1 w1).1 = (m2 w2).1 /\ same_core (m1 w1).2 (m2 w2).2.

(** The state [scrapeWebsites] enters its loop in (line 150), when no
    stop request was served before. *)
Definition loop_entry (E : Env) (iso : string) (w : World) : World :=
  let out := path_join (downloadDir E) ("Emails_" +:+ dashes iso +:+ ".csv") in
  let notfound := path_join (downloadDir E) ("Notfound_" +:+ dashes iso +:+ ".txt") in
  set_fs (<[out := [Text header]]> (fs w))
    (set_lastNotFoundFile notfound (set_lastOutputFile out (set_isScraping true w))).

(** The state it returns in, from the state the loop ended in (lines 171
    to 173). *)
Definition loop_exit (w : World) : World :=
  (sendProgress "Scraping complete."
     (set_isScraping false (set_browser_ops (browser_ops w ++ [CloseBrowser]) w))).2.

(** A record the run can process without an exception: no site, or a
    site that parses and against which the contact paths resolve. *)
Definition well_formed (E : Env) (record : CsvRecord) : Prop :=
  match site_of record with
  | None | Some EmptyString => True
  | Some site =>
      is_Some (url_hostname E site) /\
      Forall (fun path => is_Some (url_href E path site)) contactPaths
  end.

(** ** A small world to run the program in *)

(** The host of an [http://host/...] or [https://host/...] URL, for
    lower-case hosts without user, port, query or fragment: the part of
    the URL class the examples need. *)
Fixpoint until_slash (s : string) : string :=
  match s with
  | EmptyString => EmptyString
  | String c rest =>
      if Ascii.eqb c "/" then EmptyString else String c (until_slash rest)
  end.

Definition demo_origin (s : string) : option (string * string) :=
  let host_after (scheme : string) :=
    match until_slash (Str.drop (String.length scheme) s) with
    | EmptyString => None
    | host => Some (scheme, host)
    end in
  if String.prefix "https://" s then host_after "https://"
  else if String.prefix "http://" s then host_after "http://"
  else None.

Definition demo_hostname (s : string) : option string :=
  snd <$> demo_origin s.

(** A path starting with [/] replaces the path of the base. *)
Definition demo_href (path base : string) : option string :=
  (fun o : string * string => o.1 +:+ o.2 +:+ path) <$> demo_origin base.

(** A page that does not load, and a page that loads with these anchors. *)
Definition dead_page : Page := mkPage true true false None true.

Definition page_with (hrefs : list string) : Page :=
  mkPage true true true (Some hrefs) true.

(** A web given by a table: a page per URL, at any time. *)
Fixpoint lookup_page (table : list (string * Page)) (url : string) : Page :=
  match table with
  | [] => dead_page
  | (u, page) :: rest => if String.eqb u url then page else lookup_page rest url
  end.

Definition demo_env (table : list (string * Page)) : Env :=
  mkEnv (fun _ url => lookup_page table url) demo_hostname demo_href "downloads".

(** The process before any run, one open client listening. *)
Definition idle : World :=
  mkWorld false EmptyString EmptyString ∅ [mkClient 1 []] [] [] [].

Definition business (name address site : string) : CsvRecord :=
  <["Business Name" := name]> (<["Category" := "Cafe"]> (<["Address" := address]>
  (<["Postal Code" := "1000"]> (<["Phone Number" := "555 0100"]>
  (<["Website" := site]> ∅))))).

Definition demo_iso : string := "2024-01-02T03:04:05.678Z".

Definition demo_emails : string := "downloads/Emails_2024-01-02T03-04-05-678Z.csv".

Definition demo_notfound : string := "downloads/Notfound_2024-01-02T03-04-05-678Z.txt".

(** ** The HTTP handlers *)

(** [path.basename(p)] on POSIX: trailing slashes aside, what follows the
    last slash. *)
Fixpoint without_trailing_slashes (p : string) : string :=
  match p with
  | EmptyString => EmptyString
  | String c rest =>
      match without_trailing_slashes rest with
      | EmptyString => if Ascii.eqb c "/" then EmptyString else String c EmptyString
      | kept => String c kept
      end
  end.

Fixpoint after_last_slash (p : string) : string :=
  match p with
  | EmptyString => EmptyString
  | String c rest =>
      if Ascii.eqb c "/" || Str.includes "/" rest then after_last_slash rest else p
  end.

Definition basename (p : string) : string :=
  after_last_slash (without_trailing_slashes p).

(** The values of the JSON bodies the handlers send. *)
Inductive Json : Type :=
| JString (s : string)
| JBool (b : bool).

(** A response: its status and the members of its JSON body, in order. *)
Record Response : Type := mkResponse {
  status : nat;
  body : list (string * Json)
}.

Section Handlers.

Variable E : Env.

(** [POST /upload], lines 177 to 184. [file] is [req.file], given by the
    rows csv-parser reads from it. A run that throws leaves the handler
    without a response. *)
Definition post_upload (sched : Schedule) (iso : string)
    (file : option (list CsvRecord)) : M Response :=
  match file with
  | None => mret (mkResponse 400 [("error", JString "No file uploaded")])
  | Some websites =>
      sendProgress "Starting scraping process...";;
      scrapeWebsites E sched iso websites;;
      out ← gets lastOutputFile;
      mret (mkResponse 200 [ ("success", JBool true);
                             ("downloadUrl", JString ("/download/" +:+ basename out)) ])
  end.

(** [POST /stop], lines 187 to 191. *)
Definition post_stop : M Response :=
  stopHandler;;
  mret (mkResponse 200 [ ("success", JBool true);
                         ("message", JString "Scraping process stopped.") ]).

(** [GET /latest-file], lines 194 to 196. *)
Definition get_latest_file : M Response :=
  out ← gets lastOutputFile;
  mret (mkResponse 200 [("success", JBool true); ("filename", JString (basename out))]).

(** [GET /notfound-file], lines 199 to 201. *)
Definition get_notfound_file : M Response :=
  out ← gets lastNotFoundFile;
  mret (mkResponse 200 [("success", JBool true); ("filename", JString (basename out))]).

(** [GET /scraping-status], lines 210 to 212. *)
Definition get_scraping_status : M Response :=
  active ← gets isScraping;
  mret (mkResponse 200 [("isScraping", JBool active)]).

End Handlers.

(** ** Whole runs, in words *)

(** What a client has after [msgs] were broadcast, one after the other. *)
Definition deliver_all (msgs : list string) (c : Client) : Client :=
  fold_left (fun c message => deliver message c) msgs c.

(** The progress lines of the records: one per record with a site, in the
    order of the input, numbered by the position in the input. *)
Fixpoint progress_lines (total i : nat) (records : list CsvRecord) : list string :=
  match records with
  | [] => []
  | record :: rest =>
      match site_of record with
      | None | Some EmptyString => progress_lines total (S i) rest
      | Some site => progress_line site i total :: progress_lines total (S i) rest
      end
  end.

(** The state [scrapeWebsites] enters its loop in (line 150), a stop
    request served before or not. *)
Definition launched (E : Env) (sched : Schedule) (iso : string) (w : World) : World :=
  let out := path_join (downloadDir E) ("Emails_" +:+ dashes iso +:+ ".csv") in
  let notfound := path_join (downloadDir E) ("Notfound_" +:+ dashes iso +:+ ".txt") in
  let w1 := (serve_stop (stop_at_launch sched) (set_isScraping true w)).2 in
  set_fs (<[out := [Text header]]> (fs w1))
    (set_lastNotFoundFile notfound (set_lastOutputFile out w1)).

(** A piece of a file is where the code puts pieces of its kind: rows in
    the matched output, text in the unmatched output. *)
Definition piece_in_place (w : World) (path : string) (piece : Chunk) : Prop :=
  match piece with
  | Csv _ => path = lastOutputFile w
  | Text _ => path = lastNotFoundFile w
  end.

(** From [w] to [w'] files only grew, each by pieces that are in place:
    a file is as it was, or it exists and holds more than before. *)
Definition files_grown (w w' : World) : Prop :=
  lastOutputFile w' = lastOutputFile w /\
  lastNotFoundFile w' = lastNotFoundFile w /\
  forall path,
    fs w' !! path = fs w !! path \/
    exists pieces,
      pieces <> [] /\
      fs w' !! path = Some (file w path ++ pieces) /\
      Forall (piece_in_place w path) pieces.

(** What running some records does to a state, the flag aside: messages
    are broadcast, at most [n] URLs are probed, files grow in place. *)
Definition effect (n : nat) (w w' : World) : Prop :=
  (exists msgs, published w' = published w ++ msgs /\
                clients w' = deliver_all msgs <$> clients w) /\
  (exists urls, length urls <= n /\ probes w' = probes w ++ urls) /\
  files_grown w w'.

(** ** The outputs of a run, in the specification's words *)

(** The addresses that survive the filter, in order: each extracted
    address gives the part before its first [?], trimmed, which is kept
    when it holds an [@] and dropped when it does not. *)
Inductive survivors : list string -> list string -> Prop :=
| survivors_nil : survivors [] []
| survivors_keep (extracted address : string) (rest kept : list string) :
    before_query_trimmed extracted address ->
    Str.includes "@" address = true ->
    survivors rest kept ->
    survivors (extracted :: rest) (address :: kept)
| survivors_drop (extracted address : string) (rest kept : list string) :
    before_query_trimmed extracted address ->
    Str.includes "@" address = false ->
    survivors rest kept ->
    survivors (extracted :: rest) kept.

(** The domain reported for a host name: without its leading ["www."]
    when it has one, the host name itself when ["www."] occurs nowhere in
    it. *)
Definition normalized (host domain : string) : Prop :=
  (String.prefix "www." host = true -> domain = Str.drop 4 host) /\
  (Str.occurs "www." host = false -> domain = host).

(** Probing a site after [n] earlier probes: the site alone when its page
    yields addresses; otherwise the site, then the contact pages in order
    up to the first that yields addresses. *)
Definition site_probing (E : Env) (n : nat) (site : string)
    (urls emails : list string) : Prop :=
  (probe_result (web E n site) <> [] /\
   urls = [site] /\ emails = probe_result (web E n site)) \/
  (probe_result (web E n site) = [] /\
   exists hrefs,
     Forall2 (fun path href => url_href E path site = Some href) contactPaths hrefs /\
     urls = site :: take (first_success (results_from E (S n) hrefs)).1 hrefs /\
     emails = (first_success (results_from E (S n) hrefs)).2).

(** [reflected E n records urls rows domains]: processing [records] in
    order, after [n] earlier probes, probes [urls], writes [rows] to the
    matched output and the lines of [domains] to the unmatched output. A
    record without a site gives nothing; a record whose probing finds
    addresses gives one row per surviving address, with its metadata; a
    record whose probing finds none gives its normalized domain. *)
Inductive reflected (E : Env) :
  nat -> list CsvRecord -> list string -> list OutRow -> list string -> Prop :=
| reflected_nil (n : nat) : reflected E n [] [] [] []
| reflected_skipped (n : nat) (record : CsvRecord) (rest : list CsvRecord)
    (urls : list string) (rows : list OutRow) (domains : list string) :
    (record !! "Website" = None \/
     exists cell, record !! "Website" = Some cell /\ Str.trim cell = EmptyString) ->
    reflected E n rest urls rows domains ->
    reflected E n (record :: rest) urls rows domains
| reflected_matched (n : nat) (record : CsvRecord) (rest : list CsvRecord)
    (cell : string) (probed_urls emails addresses : list string) (new : list OutRow)
    (urls : list string) (rows : list OutRow) (domains : list string) :
    record !! "Website" = Some cell -> Str.trim cell <> EmptyString ->
    site_probing E n (Str.trim cell) probed_urls emails ->
    emails <> [] ->
    survivors emails addresses ->
    Forall2 (fun row address =>
               keeps_metadata record row /\ field "Email" row = Some address)
            new addresses ->
    reflected E (n + length probed_urls) rest urls rows domains ->
    reflected E n (record :: rest) (probed_urls ++ urls) (new ++ rows) domains
| reflected_unmatched (n : nat) (record : CsvRecord) (rest : list CsvRecord)
    (cell host domain : string) (probed_urls : list string)
    (urls : list string) (rows : list OutRow) (domains : list string) :
    record !! "Website" = Some cell -> Str.trim cell <> EmptyString ->
    site_probing E n (Str.trim cell) probed_urls [] ->
    url_hostname E (Str.trim cell) = Some host ->
    normalized host domain ->
    reflected E (n + length probed_urls) rest urls rows domains ->
    reflected E n (record :: rest) (probed_urls ++ urls) rows (domain :: domains).

(** A row of the matched output traced to a probe of the run: its address
    is the cleaned form, holding an [@], of an address that the probe
    number [j], not before [n0], of the log extracted from its page. *)
Definition row_traced (E : Env) (n0 : nat) (w : World) (row : OutRow) : Prop :=
  exists (j : nat) (url extracted address : string),
    n0 <= j /\ probes w !! j = Some url /\
    extracted ∈ probe_result (web E j url) /\
    field "Email" row = Some address /\
    before_query_trimmed extracted address /\
    Str.includes "@" address = true.

(** Every row of the current matched output is traced to a probe made
    since the log had [n0] entries. *)
Definition output_traced (E : Env) (n0 : nat) (w : World) : Prop :=
  n0 <= length (probes w) /\
  Forall (row_traced E n0 w) (rows_of (file w (lastOutputFile w))).

(** * Properties *)

(** ** Strings *)

Lemma append_cons c (a b : string) : String c a +:+ b = String c (a +:+ b).
Proof. reflexivity. Qed.

Lemma append_empty_l (b : string) : EmptyString +:+ b = b.
Proof. reflexivity. Qed.

Lemma append_empty_r (a : string) : a +:+ EmptyString = a.
Proof. induction a as [|x a IH]; [reflexivity|]. now rewrite append_cons, IH. Qed.

Lemma append_assoc (a b c : string) : (a +:+ b) +:+ c = a +:+ (b +:+ c).
Proof. induction a as [|x a IH]; [reflexivity|]. now rewrite !append_cons, IH. Qed.

Lemma split_nonempty sep s : Str.split sep s <> [].
Proof.
  destruct s as [|c s]; simpl; [discriminate|].
  destruct (Ascii.eqb c sep); [discriminate|].
  destruct (Str.split sep s); discriminate.
Qed.

Lemma split_head sep s :
  exists piece pieces after,
    Str.split sep s = piece :: pieces /\
    s = piece +:+ after /\
    Str.includes sep piece = false /\
    (after = EmptyString \/ Str.first_char after = Some sep).
Proof.
  induction s as [|c s IH]; simpl.
  - exists EmptyString, [], EmptyString. auto.
  - destruct (Ascii.eqb c sep) eqn:Hc.
    + apply Ascii.eqb_eq in Hc. subst c.
      exists EmptyString, (Str.split sep s), (String sep s). simpl. auto.
    + destruct IH as (piece & pieces & after & Hs & Heq & Hno & Hafter).
      rewrite Hs. exists (String c piece), pieces, after.
      rewrite append_cons. simpl. rewrite Hc, Hno, <- Heq. auto.
Qed.

Lemma trimStart_spec s :
  exists l, s = l +:+ Str.trimStart s /\ Str.all_space l = true /\
    (forall c, Str.first_char (Str.trimStart s) = Some c -> Str.is_space c = false).
Proof.
  induction s as [|c s IH]; simpl.
  - exists EmptyString. repeat split; auto; discriminate.
  - destruct (Str.is_space c) eqn:Hc.
    + destruct IH as (l & Heq & Hl & Hfirst).
      exists (String c l). rewrite append_cons, <- Heq. simpl. rewrite Hc, Hl. auto.
    + exists EmptyString. repeat split; auto.
      simpl. intros d [= <-]. exact Hc.
Qed.

Lemma trimEnd_spec s :
  exists r, s = Str.trimEnd s +:+ r /\ Str.all_space r = true /\
    (forall c, Str.last_char (Str.trimEnd s) = Some c -> Str.is_space c = false).
Proof.
  induction s as [|c s IH]; simpl.
  - exists EmptyString. repeat split; auto; discriminate.
  - destruct IH as (r & Heq & Hr & Hlast).
    destruct (Str.trimEnd s) as [|d kept] eqn:Hk.
    + rewrite append_empty_l in Heq. subst r. destruct (Str.is_space c) eqn:Hc.
      * exists (String c s). simpl. rewrite Hc, Hr. repeat split; auto; discriminate.
      * exists s. repeat split; auto. simpl. intros e [= <-]. exact Hc.
    + exists r. rewrite append_cons, <- Heq. repeat split; auto.
      intros e He. apply Hlast.
      change (Str.last_char (String c (String d kept)))
        with (match Str.last_char (String d kept) with
              | Some x => Some x | None => Some c end) in He.
      destruct (Str.last_char (String d kept)) eqn:Hl; [exact He|].
      simpl in Hl. destruct (Str.last_char kept); discriminate.
Qed.

Lemma trimEnd_first s c :
  Str.first_char (Str.trimEnd s) = Some c -> Str.first_char s = Some c.
Proof.
  destruct s as [|d s]; simpl; [discriminate|].
  destruct (Str.trimEnd s); [destruct (Str.is_space d)|]; simpl; auto; discriminate.
Qed.

Lemma cleanEmail_spec email : before_query_trimmed email (cleanEmail email).
Proof.
  unfold cleanEmail, before_query_trimmed.
  destruct (split_head "?" email) as (piece & pieces & after & Hs & Heq & Hno & Hafter).
  rewrite Hs.
  destruct (trimStart_spec piece) as (l & Hl & Hsl & Hfirst).
  destruct (trimEnd_spec (Str.trimStart piece)) as (r & Hr & Hsr & Hlast).
  exists piece, after, l, r. unfold Str.trim.
  repeat split; auto.
  - rewrite <- Hr. exact Hl.
  - intros c Hc. apply Hfirst. now apply trimEnd_first.
Qed.

(** ** The monad *)

Lemma run_bind {A B : Type} (m : M A) (f : A -> M B) (w : World) :
  (m ≫= f) w =
  match m w with
  | (Ok a, w') => f a w'
  | (Throw e, w') => (Throw e, w')
  end.
Proof. reflexivity. Qed.

Lemma run_ret {A : Type} (a : A) (w : World) : (mret a : M A) w = (Ok a, w).
Proof. reflexivity. Qed.

Ltac run :=
  repeat (rewrite ?run_bind, ?run_ret;
          unfold modify, gets, throw, try_catch; cbn beta iota).

(** ** Files *)

Lemma rows_of_app (a b : list Chunk) : rows_of (a ++ b) = rows_of a ++ rows_of b.
Proof.
  induction a as [|[s|rows] a IH]; simpl; auto.
  now rewrite IH, app_assoc.
Qed.

Lemma texts_of_app (a b : list Chunk) : texts_of (a ++ b) = texts_of a ++ texts_of b.
Proof. induction a as [|[s|rows] a IH]; simpl; auto. now rewrite IH. Qed.

Lemma appendFileSync_run path data w :
  appendFileSync path data w =
  (Ok tt, set_fs (<[path := file w path ++ [data]]> (fs w)) w).
Proof. reflexivity. Qed.

Lemma file_appended path data w :
  file (set_fs (<[path := file w path ++ [data]]> (fs w)) w) path
  = file w path ++ [data].
Proof. unfold file. simpl. now rewrite lookup_insert_eq. Qed.

Lemma file_appended_other path data w other :
  other <> path ->
  file (set_fs (<[path := file w path ++ [data]]> (fs w)) w) other = file w other.
Proof. intros Hne. unfold file. simpl. now rewrite lookup_insert_ne. Qed.

(** What [writeEmailToCSV] does, whatever the addresses. *)
Lemma writeEmailToCSV_run path record emails w :
  exists w',
    writeEmailToCSV path record emails w = (Ok tt, w') /\
    rows_of (file w' path)
    = rows_of (file w path) ++ (csvRow record <$> cleanedEmails emails) /\
    texts_of (file w' path) = texts_of (file w path) /\
    (forall other, other <> path -> file w' other = file w other) /\
    (cleanedEmails emails = [] -> w' = w).
Proof.
  unfold writeEmailToCSV.
  destruct (cleanedEmails emails) as [|e cleaned] eqn:Hc; simpl.
  - exists w. rewrite app_nil_r. auto.
  - eexists. rewrite appendFileSync_run. split; [reflexivity|].
    rewrite file_appended, rows_of_app, texts_of_app. simpl.
    rewrite !app_nil_r. repeat split; auto.
    + intros other Hne. now apply file_appended_other.
    + discriminate.
Qed.

Lemma writeNotFoundDomain_run path domain w :
  exists w',
    writeNotFoundDomain path domain w = (Ok tt, w') /\
    file w' path = file w path ++ [Text (line domain)] /\
    (forall other, other <> path -> file w' other = file w other).
Proof.
  unfold writeNotFoundDomain. rewrite appendFileSync_run. eexists.
  split; [reflexivity|]. split; [apply file_appended|].
  intros other Hne. now apply file_appended_other.
Qed.

Lemma cleanedEmails_elem (emails : list string) (address : string) :
  address ∈ cleanedEmails emails <->
  Str.includes "@" address = true /\
  exists extracted, extracted ∈ emails /\ address = cleanEmail extracted.
Proof.
  unfold cleanedEmails. rewrite list_elem_of_In, filter_In, <- list_elem_of_In.
  rewrite list_elem_of_fmap. split.
  - intros [(e & -> & He) Hat]. eauto.
  - intros [Hat (e & He & ->)]. eauto.
Qed.

Lemma field_Email record email : field "Email" (csvRow record email) = Some email.
Proof. reflexivity. Qed.

(** ** The site prober *)

Lemma probed_refl w : probed w w [] [].
Proof. unfold probed. rewrite !app_nil_r. now destruct w. Qed.

Lemma probed_trans w1 w2 w3 u1 o1 u2 o2 :
  probed w1 w2 u1 o1 -> probed w2 w3 u2 o2 -> probed w1 w3 (u1 ++ u2) (o1 ++ o2).
Proof.
  unfold probed. intros -> ->. destruct w1; simpl.
  unfold set_browser_ops, set_probes; simpl. now rewrite !app_assoc.
Qed.

Lemma spread_set_elem (seen xs : list string) (x : string) :
  x ∈ spread_set seen xs <-> x ∈ xs /\ x ∉ seen.
Proof.
  revert seen. induction xs as [|y xs IH]; intros seen; simpl.
  - rewrite elem_of_nil. tauto.
  - rewrite elem_of_cons. case_bool_decide as Hy.
    + rewrite IH. split; [tauto|]. intros [[->|Hx] Hn]; tauto.
    + rewrite elem_of_cons, IH, not_elem_of_cons. split.
      * intros [->|[Hx [Hne Hn]]]; tauto.
      * intros [[->|Hx] Hn]; [tauto|].
        destruct (decide (x = y)); tauto.
Qed.

Lemma spread_set_NoDup (seen xs : list string) : NoDup (spread_set seen xs).
Proof.
  revert seen. induction xs as [|y xs IH]; intros seen; simpl.
  - constructor.
  - case_bool_decide as Hy; [apply IH|].
    constructor; [|apply IH].
    rewrite spread_set_elem, not_elem_of_cons. tauto.
Qed.

Lemma probe_result_NoDup page : NoDup (probe_result page).
Proof.
  unfold probe_result.
  destruct (_ && _); [|constructor].
  destruct (mailto_hrefs page); [apply spread_set_NoDup|constructor].
Qed.

(** [scrapeEmails] in one equation: it always returns, and only the two
    logs of the state grow. *)
Lemma scrapeEmails_run E url w :
  let page := web E (length (probes w)) url in
  exists w',
    scrapeEmails E url w = (Ok (probe_result page), w') /\
    probed w w' [url] (probe_ops page url).
Proof.
  intros page. unfold scrapeEmails, begin_probe, probed.
  rewrite run_bind. fold page.
  unfold probe_result, probe_ops, evaluate, browser_call.
  destruct page as [np ua gt hrefs cl]; simpl.
  destruct np, ua, gt, hrefs as [hrefs|], cl; run; simpl;
    (eexists; split; [reflexivity|]);
    destruct w; unfold set_browser_ops, set_probes; simpl;
    now rewrite <- ?app_assoc.
Qed.

Lemma probed_probes w w' urls ops : probed w w' urls ops -> probes w' = probes w ++ urls.
Proof. now intros ->. Qed.

Lemma probed_browser_ops w w' urls ops :
  probed w w' urls ops -> browser_ops w' = browser_ops w ++ ops.
Proof. now intros ->. Qed.

(** Probing leaves the flag, the files and the progress channel alone. *)
Lemma probed_frame w w' urls ops :
  probed w w' urls ops ->
  isScraping w' = isScraping w /\ lastOutputFile w' = lastOutputFile w /\
  lastNotFoundFile w' = lastNotFoundFile w /\ fs w' = fs w /\
  clients w' = clients w /\ published w' = published w.
Proof. now intros ->. Qed.

(** ** The contact-page fallback *)

Lemma first_success_spec (results : list (list string)) :
  let n := (first_success results).1 in
  let emails := (first_success results).2 in
  n <= length results /\
  (forall j, S j < n -> results !! j = Some []) /\
  ((emails <> [] /\ exists k, n = S k /\ results !! k = Some emails) \/
   (emails = [] /\ n = length results /\ Forall (fun r => r = []) results)).
Proof.
  induction results as [|r results IH]; simpl.
  - repeat split; [lia| intros; lia |]. right. auto.
  - destruct r as [|x r]; simpl.
    + destruct (first_success results) as [n emails]; simpl in *.
      destruct IH as (Hle & Hbefore & Hlast).
      split; [lia|]. split.
      * intros [|j] Hj; [reflexivity|]. simpl. apply Hbefore. lia.
      * destruct Hlast as [(Hne & k & -> & Hk)|(-> & -> & Hall)].
        -- left. split; [exact Hne|]. exists (S k). auto.
        -- right. auto.
    + split; [lia|]. split; [intros; lia|].
      left. split; [discriminate|]. exists 0. auto.
Qed.

Lemma scrapeContactPaths_run E mainUrl paths hrefs :
  Forall2 (fun path href => url_href E path mainUrl = Some href) paths hrefs ->
  forall w,
    let found := first_success (results_from E (length (probes w)) hrefs) in
    exists w' ops,
      scrapeContactPaths E paths mainUrl w = (Ok found.2, w') /\
      probed w w' (take found.1 hrefs) ops.
Proof.
  induction 1 as [|path href paths hrefs Hhref _ IH]; intros w; simpl.
  - exists w, []. split; [reflexivity|apply probed_refl].
  - unfold new_URL_href. rewrite Hhref. run.
    destruct (scrapeEmails_run E href w) as (w1 & Hrun & Hprobed).
    rewrite Hrun. cbn beta iota.
    destruct (probe_result (web E (length (probes w)) href)) as [|x r] eqn:Hr.
    + simpl. destruct (IH w1) as (w' & ops & Hrest & Hprobed').
      rewrite (probed_probes _ _ _ _ Hprobed), length_app, Nat.add_1_r in Hrest, Hprobed'.
      destruct (first_success _) as [n emails]; simpl in *.
      exists w', (probe_ops (web E (length (probes w)) href) href ++ ops).
      split; [exact Hrest|].
      now apply (probed_trans _ _ _ [href] _ _ _ Hprobed).
    + simpl. exists w1, (probe_ops (web E (length (probes w)) href) href).
      split; [reflexivity|]. now rewrite take_0.
Qed.

(** Whether it returns or throws, the fallback only probes. *)
Lemma scrapeContactPaths_frame E mainUrl paths w :
  exists res w' urls ops,
    scrapeContactPaths E paths mainUrl w = (res, w') /\
    probed w w' urls ops /\
    (forall emails, res = Ok emails -> NoDup emails).
Proof.
  revert w. induction paths as [|path paths IH]; intros w; simpl.
  - exists (Ok []), w, [], []. repeat split; [apply probed_refl|].
    intros emails [= <-]. constructor.
  - unfold new_URL_href. destruct (url_href E path mainUrl) as [href|]; run.
    + destruct (scrapeEmails_run E href w) as (w1 & Hrun & Hprobed).
      rewrite Hrun. cbn beta iota.
      destruct (probe_result (web E (length (probes w)) href)) as [|x r] eqn:Hr; simpl.
      * destruct (IH w1) as (res & w' & urls & ops & Hrest & Hprobed' & Hnodup).
        exists res, w', ([href] ++ urls), (probe_ops (web E (length (probes w)) href) href ++ ops).
        repeat split; auto. now apply (probed_trans _ _ _ _ _ _ _ Hprobed).
      * exists (Ok (x :: r)), w1, [href], (probe_ops (web E (length (probes w)) href) href).
        repeat split; auto. intros emails [= <-]. rewrite <- Hr. apply probe_result_NoDup.
    + exists (Throw (InvalidURL mainUrl)), w, [], [].
      repeat split; [apply probed_refl|discriminate].
Qed.

Lemma probe_site_frame E site w :
  exists res w' urls ops,
    probe_site E site w = (res, w') /\
    probed w w' urls ops /\
    (forall emails, res = Ok emails -> NoDup emails).
Proof.
  unfold probe_site. run.
  destruct (scrapeEmails_run E site w) as (w1 & Hrun & Hprobed).
  rewrite Hrun. cbn beta iota.
  destruct (probe_result (web E (length (probes w)) site)) as [|x r] eqn:Hr; simpl.
  - destruct (scrapeContactPaths_frame E site contactPaths w1)
      as (res & w' & urls & ops & Hrest & Hprobed' & Hnodup).
    exists res, w', ([site] ++ urls), (probe_ops (web E (length (probes w)) site) site ++ ops).
    repeat split; auto. now apply (probed_trans _ _ _ _ _ _ _ Hprobed).
  - exists (Ok (x :: r)), w1, [site], (probe_ops (web E (length (probes w)) site) site).
    repeat split; auto. intros emails [= <-]. rewrite <- Hr. apply probe_result_NoDup.
Qed.

(** ** One record *)

(** A record with a site whose URL parses: the progress line, the probes,
    then the classification. *)
Lemma process_record_run E total i record site host w :
  site_of record = Some site -> site <> EmptyString ->
  url_hostname E site = Some host ->
  process_record E total i record w =
  match probe_site E site (sendProgress (progress_line site i total) w).2 with
  | (Ok emails, w2) => classify record (Str.replace "www." "" host) emails w2
  | (Throw e, w2) => (Throw e, w2)
  end.
Proof.
  intros Hsite Hne Hhost. unfold process_record, new_URL_hostname.
  rewrite Hsite, Hhost. destruct site as [|c site]; [congruence|].
  reflexivity.
Qed.

(** * The claims *)

(** C7. A record whose Website field is missing, or blank once trimmed, is
    skipped: processing it returns normally and leaves the whole state as
    it was, so no matched row, no unmatched line and no progress event
    (and no probe) comes of it. *)
Theorem blank_website_skipped (E : Env) (total i : nat) (record : CsvRecord) (w : World) :
  record !! "Website" = None \/
  (exists cell, record !! "Website" = Some cell /\ Str.trim cell = EmptyString) ->
  process_record E total i record w = (Ok tt, w).
Proof.
  intros [Hmissing|(cell & Hcell & Hblank)]; unfold process_record, site_of.
  - now rewrite Hmissing.
  - rewrite Hcell. simpl. now rewrite Hblank.
Qed.

Lemma blank_website_skipped_witness :
  process_record (demo_env []) 3 1 (business "Biz" "1 Main St" "   ") idle
  = (Ok tt, idle).
Proof.
  apply blank_website_skipped. right. exists "   ".
  split; vm_compute; reflexivity.
Defined.




(** C3. Whatever [writeEmailToCSV] is given, the rows it adds to the
    matched output carry, each, the part of an extracted address before
    its first [?], white space trimmed, and that part holds an [@]; an
    extracted address whose cleaned form has no [@] is the address of no
    added row. *)
Theorem matched_addresses_are_cleaned (path : string) (record : CsvRecord)
    (emails : list string) (w : World) :
  exists (w' : World) (new : list OutRow),
    writeEmailToCSV path record emails w = (Ok tt, w') /\
    rows_of (file w' path) = rows_of (file w path) ++ new /\
    (forall row, row ∈ new ->
       exists extracted address,
         extracted ∈ emails /\ field "Email" row = Some address /\
         before_query_trimmed extracted address /\
         Str.includes "@" address = true) /\
    (forall extracted, extracted ∈ emails ->
       Str.includes "@" (cleanEmail extracted) = false ->
       forall row, row ∈ new -> field "Email" row <> Some (cleanEmail extracted)).
Proof.
  destruct (writeEmailToCSV_run path record emails w) as (w' & Hrun & Hrows & _).
  exists w', (csvRow record <$> cleanedEmails emails).
  split; [exact Hrun|]. split; [exact Hrows|]. split.
  - intros row (address & -> & Haddr)%list_elem_of_fmap.
    apply cleanedEmails_elem in Haddr as (Hat & extracted & Hin & ->).
    exists extracted, (cleanEmail extracted).
    repeat split; auto using cleanEmail_spec.
  - intros extracted _ Hno row (address & -> & Haddr)%list_elem_of_fmap.
    apply cleanedEmails_elem in Haddr as (Hat & _).
    rewrite field_Email. intros [= ->]. congruence.
Qed.

(** C8. The site prober always returns to its caller, with a list
    without duplicates. When the navigation fails, the page is closed and
    the list is empty; when the page loads and is read, the list holds
    exactly the extracted addresses, each once, in order of first
    occurrence, and the page is closed. *)
Theorem site_prober_never_fails (E : Env) (url : string) (w : World) :
  let page := web E (length (probes w)) url in
  exists (emails : list string) (w' : World),
    scrapeEmails E url w = (Ok emails, w') /\
    NoDup emails /\
    (newPage_ok page = true -> setUserAgent_ok page = true ->
     goto_ok page = false ->
       emails = [] /\
       browser_ops w' = browser_ops w ++
         [NewPage; SetUserAgent userAgent; Goto url; ClosePage]) /\
    (newPage_ok page = true -> setUserAgent_ok page = true ->
     goto_ok page = true ->
     forall hrefs, mailto_hrefs page = Some hrefs ->
       emails = spread_set [] (mailto_address <$> hrefs) /\
       (forall address, address ∈ emails <-> address ∈ mailto_address <$> hrefs) /\
       browser_ops w' = browser_ops w ++
         [NewPage; SetUserAgent userAgent; Goto url; Evaluate; ClosePage]).
Proof.
  intros page.
  destruct (scrapeEmails_run E url w) as (w' & Hrun & Hprobed). fold page in Hrun, Hprobed.
  exists (probe_result page), w'.
  split; [exact Hrun|]. split; [apply probe_result_NoDup|].
  apply probed_browser_ops in Hprobed. rewrite Hprobed.
  unfold probe_result, probe_ops. split.
  - intros -> -> ->. auto.
  - intros -> -> -> hrefs ->. simpl. repeat split; auto.
    + rewrite spread_set_elem. intros [H _]. exact H.
    + intros H. apply spread_set_elem. split; [exact H|apply not_elem_of_nil].
Qed.

(** C4. When the ten paths resolve against the base URL, the fallback
    probes the resolved URLs in the order of the fixed list and stops at
    the first probe with a non-empty result, which it returns: the [n]
    URLs it probed are the first [n] of the list, every probe before the
    last came back empty, and either the last one gave the returned,
    non-empty list, or all ten came back empty and so does the fallback. *)
Theorem contact_fallback_first_wins (E : Env) (mainUrl : string)
    (hrefs : list string) (w : World) :
  Forall2 (fun path href => url_href E path mainUrl = Some href) contactPaths hrefs ->
  let results := results_from E (length (probes w)) hrefs in
  contactPaths =
    [ "/contact"; "/contactus"; "/contact-us"; "/support"; "/help";
      "/customer-service"; "/get-in-touch"; "/reach-us"; "/about"; "/about-us" ] /\
  exists (n : nat) (emails : list string) (w' : World),
    scrapeContactPages E mainUrl w = (Ok emails, w') /\
    probes w' = probes w ++ take n hrefs /\
    n <= 10 /\
    (forall j, S j < n -> results !! j = Some []) /\
    ((emails <> [] /\ exists k, n = S k /\ results !! k = Some emails) \/
     (emails = [] /\ n = 10 /\ Forall (fun r => r = []) results)).
Proof.
  intros Hhrefs results. split; [reflexivity|].
  destruct (scrapeContactPaths_run E mainUrl contactPaths hrefs Hhrefs w)
    as (w' & ops & Hrun & Hprobed).
  fold results in Hrun, Hprobed.
  assert (Hlen : length results = 10).
  { apply Forall2_length in Hhrefs. simpl in Hhrefs. subst results.
    clear -Hhrefs. generalize (length (probes w)).
    revert Hhrefs. generalize 10. induction hrefs as [|h hrefs IH]; intros [|m] Hm k;
      simpl in *; try congruence. f_equal. apply IH. congruence. }
  pose proof (first_success_spec results) as (Hle & Hbefore & Hlast).
  exists (first_success results).1, (first_success results).2, w'.
  rewrite Hlen in Hle, Hlast.
  split; [exact Hrun|]. split; [exact (probed_probes _ _ _ _ Hprobed)|].
  auto.
Qed.

Lemma contact_fallback_first_wins_witness :
  let E := demo_env [("https://c.example/contact-us", page_with ["mailto:hi@c.example"])] in
  let hrefs := (fun path => "https://c.example" +:+ path) <$> contactPaths in
  let results := results_from E 0 hrefs in
  contactPaths =
    [ "/contact"; "/contactus"; "/contact-us"; "/support"; "/help";
      "/customer-service"; "/get-in-touch"; "/reach-us"; "/about"; "/about-us" ] /\
  exists (n : nat) (emails : list string) (w' : World),
    scrapeContactPages E "https://c.example" idle = (Ok emails, w') /\
    probes w' = [] ++ take n hrefs /\
    n <= 10 /\
    (forall j, S j < n -> results !! j = Some []) /\
    ((emails <> [] /\ exists k, n = S k /\ results !! k = Some emails) \/
     (emails = [] /\ n = 10 /\ Forall (fun r => r = []) results)).
Proof.
  intros E hrefs.
  apply (contact_fallback_first_wins E "https://c.example" hrefs idle).
  repeat constructor.
Defined.

(** The scenario of the specification for the fallback: the third path is
    the first to yield addresses, and nothing after it is probed. *)
Example contact_fallback_third_path :
  let E := demo_env [ ("https://c.example/contact-us", page_with ["mailto:hi@c.example"]);
                      ("https://c.example/support", page_with ["mailto:help@c.example"]) ] in
  let run := scrapeContactPages E "https://c.example" idle in
  run.1 = Ok ["hi@c.example"] /\
  probes run.2 = [ "https://c.example/contact"; "https://c.example/contactus";
                   "https://c.example/contact-us" ].
Proof. vm_compute. split; reflexivity. Qed.

(** ** Classification of a record *)

Lemma csvRow_emails record (addresses : list string) :
  Forall2 (fun row address => field "Email" row = Some address)
          (csvRow record <$> addresses) addresses.
Proof. induction addresses; constructor; auto. Qed.

Lemma sendProgress_frame message w :
  let w' := (sendProgress message w).2 in
  isScraping w' = isScraping w /\ lastOutputFile w' = lastOutputFile w /\
  lastNotFoundFile w' = lastNotFoundFile w /\ fs w' = fs w /\
  probes w' = probes w /\ browser_ops w' = browser_ops w /\
  published w' = published w ++ [message].
Proof. simpl. auto 10. Qed.

(** From the state a record is met in to the state it is classified in,
    the flag, the two paths and the files stay as they are. *)
Lemma probe_site_files E site message w emails w2 :
  probe_site E site (sendProgress message w).2 = (Ok emails, w2) ->
  NoDup emails /\ isScraping w2 = isScraping w /\
  lastOutputFile w2 = lastOutputFile w /\
  lastNotFoundFile w2 = lastNotFoundFile w /\ fs w2 = fs w.
Proof.
  intros Hrun.
  destruct (probe_site_frame E site (sendProgress message w).2)
    as (res & w' & urls & ops & Hrun' & Hprobed & Hnodup).
  rewrite Hrun in Hrun'. injection Hrun' as <- <-.
  apply probed_frame in Hprobed as (-> & -> & -> & -> & _).
  split; [now apply Hnodup|]. auto.
Qed.

Lemma file_same_fs w w' path : fs w' = fs w -> file w' path = file w path.
Proof. unfold file. now intros ->. Qed.

Lemma replace_prefix pat rep s :
  String.prefix pat s = true ->
  Str.replace pat rep s = rep +:+ Str.drop (String.length pat) s.
Proof. intros H. destruct s; simpl in *; now rewrite H. Qed.

Lemma replace_absent pat rep s :
  Str.occurs pat s = false -> Str.replace pat rep s = s.
Proof.
  induction s as [|c s IH].
  - cbn [Str.occurs Str.replace].
    destruct (String.prefix pat ""); [discriminate|reflexivity].
  - cbn [Str.occurs Str.replace].
    destruct (String.prefix pat (String c s)); [discriminate|].
    intros H. now rewrite IH.
Qed.

(** The line of an unmatched record, as the code derives it: the host
    name with its first ["www."] removed, wherever that stands. *)
Lemma unmatched_line E total i record site host w w2 :
  site_of record = Some site -> site <> EmptyString ->
  url_hostname E site = Some host ->
  probe_site E site (sendProgress (progress_line site i total) w).2 = (Ok [], w2) ->
  exists w',
    process_record E total i record w = (Ok tt, w') /\
    file w' (lastNotFoundFile w)
    = file w (lastNotFoundFile w) ++ [Text (line (Str.replace "www." "" host))] /\
    (forall other, other <> lastNotFoundFile w -> file w' other = file w other).
Proof.
  intros Hsite Hne Hhost Hprobe.
  rewrite (process_record_run E total i record site host w Hsite Hne Hhost), Hprobe.
  apply probe_site_files in Hprobe as (_ & _ & _ & Hnf & Hfs).
  unfold classify. simpl. run. rewrite Hnf.
  destruct (writeNotFoundDomain_run (lastNotFoundFile w) (Str.replace "www." "" host) w2)
    as (w' & Hrun & Hfile & Hother).
  exists w'. split; [exact Hrun|].
  rewrite Hfile, (file_same_fs w w2) by exact Hfs. split; [reflexivity|].
  intros other Hne'. rewrite Hother by exact Hne'. now apply file_same_fs.
Qed.

(** C5, on a host name with ["www."] inside: the record of
    [https://awww.example.com], whose host name does not begin with
    ["www."], is reported as [aexample.com]. *)
Theorem inner_www_is_stripped :
  let run := scrapeWebsites (demo_env []) never_stop demo_iso
               [business "Biz" "1 Main St" "https://awww.example.com"] idle in
  run.1 = Ok tt /\
  demo_hostname "https://awww.example.com" = Some "awww.example.com" /\
  String.prefix "www." "awww.example.com" = false /\
  texts_of (file run.2 demo_notfound) = [line "aexample.com"].
Proof. vm_compute. repeat split; reflexivity. Qed.

(** C6, as the specification words it, fails: a record with an empty
    Address cell and one address found is written with the Address
    ["No"]. *)
Lemma empty_address_not_preserved :
  let record := business "Biz" "" "https://a.example" in
  let E := demo_env [("https://a.example", page_with ["mailto:info@a.example"])] in
  let run := scrapeWebsites E never_stop demo_iso [record] idle in
  record !! "Address" = Some EmptyString /\
  exists row, rows_of (file run.2 demo_emails) = [row] /\
              field "Address" row = Some "No".
Proof. vm_compute. split; [reflexivity|]. eexists. split; reflexivity. Qed.

Lemma cleanedEmails_survivors (emails : list string) :
  survivors emails (cleanedEmails emails).
Proof.
  induction emails as [|e emails IH]; [constructor|].
  unfold cleanedEmails in *. cbn [fmap list_fmap List.filter].
  destruct (Str.includes "@" (cleanEmail e)) eqn:Hat.
  - apply survivors_keep; auto using cleanEmail_spec.
  - eapply survivors_drop; eauto using cleanEmail_spec.
Qed.

(** C6, as the code has it. A record whose probes return addresses gets
    one row in the matched output per address that survives the set-based
    deduplication of the probe and the [@]-filter after cleaning, in the
    order of the addresses, and nothing in the unmatched output. Every
    such row has the columns of the header, in its order; it carries
    Business Name, Category, Postal Code, Phone Number and Website as the
    input has them, and the Address as the input has it unless that is
    missing or empty, in which case the row says ["No"]. *)
Theorem matched_rows_keep_metadata (E : Env) (total i : nat) (record : CsvRecord)
    (site host : string) (emails : list string) (w w2 : World) :
  site_of record = Some site -> site <> EmptyString ->
  url_hostname E site = Some host ->
  probe_site E site (sendProgress (progress_line site i total) w).2 = (Ok emails, w2) ->
  emails <> [] ->
  exists (w' : World) (new : list OutRow),
    process_record E total i record w = (Ok tt, w') /\
    NoDup emails /\
    rows_of (file w' (lastOutputFile w)) = rows_of (file w (lastOutputFile w)) ++ new /\
    texts_of (file w' (lastNotFoundFile w)) = texts_of (file w (lastNotFoundFile w)) /\
    (exists addresses,
       survivors emails addresses /\
       Forall2 (fun row address => field "Email" row = Some address) new addresses) /\
    header = line (String.concat "," columns) /\
    (forall row, row ∈ new -> keeps_metadata record row).
Proof.
  intros Hsite Hne Hhost Hprobe Hemails.
  rewrite (process_record_run E total i record site host w Hsite Hne Hhost), Hprobe.
  apply probe_site_files in Hprobe as (Hnodup & _ & Hout & Hnf & Hfs).
  unfold classify. destruct emails as [|e emails]; [congruence|].
  cbn [length Nat.ltb Nat.leb]. run. rewrite Hout.
  destruct (writeEmailToCSV_run (lastOutputFile w) record (e :: emails) w2)
    as (w' & Hrun & Hrows & Htexts & Hother & Hsame).
  exists w', (csvRow record <$> cleanedEmails (e :: emails)).
  split; [exact Hrun|]. split; [exact Hnodup|].
  split; [now rewrite Hrows, (file_same_fs w w2)|]. split.
  { destruct (decide (lastNotFoundFile w = lastOutputFile w)) as [->|Hdiff].
    - now rewrite Htexts, (file_same_fs w w2).
    - rewrite Hother by exact Hdiff. now rewrite (file_same_fs w w2). }
  split.
  { exists (cleanedEmails (e :: emails)).
    split; [apply cleanedEmails_survivors|apply csvRow_emails]. }
  split; [reflexivity|].
  intros row (address & -> & _)%list_elem_of_fmap.
  unfold keeps_metadata. repeat split; try reflexivity.
  - intros a Ha Hnonempty. simpl. rewrite Ha. destruct a; [congruence|reflexivity].
  - intros [Ha|Ha]; simpl; now rewrite Ha.
Qed.

Lemma matched_rows_keep_metadata_witness :
  let E := demo_env [("https://a.example",
                      page_with ["mailto:Info@A.example?subject=hi"; "mailto:sales@a.example"])] in
  let record := business "Biz" "1 Main St" "https://a.example" in
  let w := set_lastOutputFile demo_emails (set_isScraping true idle) in
  let emails := ["Info@A.example?subject=hi"; "sales@a.example"] in
  exists (w' : World) (new : list OutRow),
    process_record E 1 0 record w = (Ok tt, w') /\
    NoDup emails /\
    rows_of (file w' (lastOutputFile w)) = rows_of (file w (lastOutputFile w)) ++ new /\
    texts_of (file w' (lastNotFoundFile w)) = texts_of (file w (lastNotFoundFile w)) /\
    (exists addresses,
       survivors emails addresses /\
       Forall2 (fun row address => field "Email" row = Some address) new addresses) /\
    header = line (String.concat "," columns) /\
    (forall row, row ∈ new -> keeps_metadata record row).
Proof.
  intros E record w emails.
  refine (matched_rows_keep_metadata E 1 0 record "https://a.example" "a.example" emails w
            (probe_site E "https://a.example"
               (sendProgress (progress_line "https://a.example" 0 1) w).2).2 _ _ _ _ _).
  - vm_compute. reflexivity.
  - discriminate.
  - vm_compute. reflexivity.
  - vm_compute. reflexivity.
  - discriminate.
Defined.

(** C9. When the probes of a record return addresses none of which holds
    an [@] once cleaned, the matched branch is taken, the filter leaves
    nothing to write, and the record is processed without any change to
    the file system: it appears in neither output. *)
Theorem addresses_without_at_vanish (E : Env) (total i : nat) (record : CsvRecord)
    (site host : string) (emails : list string) (w w2 : World) :
  site_of record = Some site -> site <> EmptyString ->
  url_hostname E site = Some host ->
  probe_site E site (sendProgress (progress_line site i total) w).2 = (Ok emails, w2) ->
  emails <> [] ->
  (forall address, address ∈ emails -> Str.includes "@" (cleanEmail address) = false) ->
  cleanedEmails emails = [] /\
  classify record (Str.replace "www." "" host) emails w2
  = writeEmailToCSV (lastOutputFile w2) record emails w2 /\
  process_record E total i record w = (Ok tt, w2) /\
  fs w2 = fs w.
Proof.
  intros Hsite Hne Hhost Hprobe Hemails Hno.
  assert (Hclean : cleanedEmails emails = []).
  { destruct (cleanedEmails emails) as [|a l] eqn:Hc; [reflexivity|].
    assert (Ha : a ∈ cleanedEmails emails) by (rewrite Hc; left).
    apply cleanedEmails_elem in Ha as (Hat & e & He & ->).
    rewrite (Hno e He) in Hat. discriminate. }
  assert (Hbranch : classify record (Str.replace "www." "" host) emails w2
                    = writeEmailToCSV (lastOutputFile w2) record emails w2).
  { unfold classify. destruct emails; [congruence|reflexivity]. }
  split; [exact Hclean|]. split; [exact Hbranch|].
  rewrite (process_record_run E total i record site host w Hsite Hne Hhost), Hprobe, Hbranch.
  apply probe_site_files in Hprobe as (_ & _ & _ & _ & Hfs).
  split; [|exact Hfs].
  unfold writeEmailToCSV. now rewrite Hclean.
Qed.

Lemma addresses_without_at_vanish_witness :
  let E := demo_env [("https://a.example",
                      page_with ["mailto:nobody"; "mailto:?subject=hello"])] in
  let record := business "Biz" "1 Main St" "https://a.example" in
  let w := set_lastNotFoundFile demo_notfound
             (set_lastOutputFile demo_emails (set_isScraping true idle)) in
  let emails := ["nobody"; "?subject=hello"] in
  let w2 := (probe_site E "https://a.example"
               (sendProgress (progress_line "https://a.example" 0 1) w).2).2 in
  cleanedEmails emails = [] /\
  classify record (Str.replace "www." "" "a.example") emails w2
  = writeEmailToCSV (lastOutputFile w2) record emails w2 /\
  process_record E 1 0 record w = (Ok tt, w2) /\
  fs w2 = fs w.
Proof.
  intros E record w emails w2.
  apply (addresses_without_at_vanish E 1 0 record "https://a.example" "a.example" emails w w2).
  - vm_compute. reflexivity.
  - discriminate.
  - vm_compute. reflexivity.
  - vm_compute. reflexivity.
  - discriminate.
  - intros address Hin. apply list_elem_of_In in Hin.
    destruct Hin as [<-|[<-|[]]]; reflexivity.
Defined.

(** C10. The probe removes duplicates among the raw addresses, before
    [writeEmailToCSV] cleans them: of a page with the two links
    [mailto:a@x?s=1] and [mailto:a@x?s=2] both addresses survive the probe,
    and the matched output gets the same row twice. *)
Theorem dedup_precedes_cleaning :
  let page := page_with ["mailto:a@x?s=1"; "mailto:a@x?s=2"] in
  let record := business "Biz" "1 Main St" "https://a.example" in
  let run := scrapeWebsites (demo_env [("https://a.example", page)]) never_stop
               demo_iso [record] idle in
  probe_result page = ["a@x?s=1"; "a@x?s=2"] /\
  run.1 = Ok tt /\
  rows_of (file run.2 demo_emails) = [csvRow record "a@x"; csvRow record "a@x"] /\
  fs run.2 !! demo_notfound = None.
Proof. vm_compute. repeat split; reflexivity. Qed.

(** ** Runs that differ in their progress messages only *)

Lemma same_core_refl w : same_core w w.
Proof. unfold same_core. auto 10. Qed.

Lemma same_core_outputs w1 w2 : same_core w1 w2 -> same_outputs w1 w2.
Proof. unfold same_core, same_outputs. tauto. Qed.

Lemma alike_ret {A : Type} (a : A) : alike (mret a) (mret a).
Proof. intros w1 w2 H. split; [reflexivity|exact H]. Qed.

Lemma alike_throw {A : Type} (e : Err) : alike (throw e : M A) (throw e).
Proof. intros w1 w2 H. split; [reflexivity|exact H]. Qed.

Lemma alike_bind {A B : Type} (m1 m2 : M A) (f1 f2 : A -> M B) :
  alike m1 m2 -> (forall a, alike (f1 a) (f2 a)) -> alike (m1 ≫= f1) (m2 ≫= f2).
Proof.
  intros Hm Hf w1 w2 Hw. rewrite !run_bind.
  destruct (Hm w1 w2 Hw) as [Hres Hcore].
  destruct (m1 w1) as [r1 w1'], (m2 w2) as [r2 w2']; simpl in *. subst r2.
  destruct r1 as [a|e]; [now apply Hf|]. split; [reflexivity|exact Hcore].
Qed.

Lemma alike_gets {A : Type} (f : World -> A) :
  (forall w1 w2, same_core w1 w2 -> f w1 = f w2) -> alike (gets f) (gets f).
Proof. intros Hf w1 w2 Hw. unfold gets; simpl. split; [now rewrite (Hf w1 w2)|exact Hw]. Qed.

Lemma alike_modify (f1 f2 : World -> World) :
  (forall w1 w2, same_core w1 w2 -> same_core (f1 w1) (f2 w2)) ->
  alike (modify f1) (modify f2).
Proof. intros Hf w1 w2 Hw. unfold modify; simpl. split; [reflexivity|now apply Hf]. Qed.

Lemma alike_sendProgress message1 message2 :
  alike (sendProgress message1) (sendProgress message2).
Proof. apply alike_modify. intros w1 w2 H. exact H. Qed.

Lemma alike_appendFileSync path data :
  alike (appendFileSync path data) (appendFileSync path data).
Proof.
  apply alike_modify. intros w1 w2 (H1 & H2 & H3 & H4 & H5 & H6).
  unfold same_core; simpl. rewrite H4. auto 10.
Qed.

Lemma alike_scrapeEmails E url : alike (scrapeEmails E url) (scrapeEmails E url).
Proof.
  intros w1 w2 Hw.
  destruct (scrapeEmails_run E url w1) as (w1' & -> & ->).
  destruct (scrapeEmails_run E url w2) as (w2' & -> & ->).
  destruct Hw as (H1 & H2 & H3 & H4 & H5 & H6).
  unfold same_core; simpl. rewrite H5, H6. auto 10.
Qed.

Lemma alike_scrapeContactPaths E mainUrl paths :
  alike (scrapeContactPaths E paths mainUrl) (scrapeContactPaths E paths mainUrl).
Proof.
  induction paths as [|path paths IH]; simpl; [apply alike_ret|].
  apply alike_bind.
  - unfold new_URL_href. destruct (url_href E path mainUrl); [apply alike_ret|apply alike_throw].
  - intros href. apply alike_bind; [apply alike_scrapeEmails|].
    intros emails. destruct (Nat.ltb 0 (length emails)); [apply alike_ret|exact IH].
Qed.

Lemma alike_probe_site E site : alike (probe_site E site) (probe_site E site).
Proof.
  apply alike_bind; [apply alike_scrapeEmails|].
  intros emails. destruct (Nat.ltb 0 (length emails)); [apply alike_ret|].
  apply alike_scrapeContactPaths.
Qed.

Lemma alike_classify record domain emails :
  alike (classify record domain emails) (classify record domain emails).
Proof.
  unfold classify. destruct (Nat.ltb 0 (length emails)).
  - apply alike_bind; [apply alike_gets; now intros w1 w2 (_ & H & _)|].
    intros out. unfold writeEmailToCSV.
    destruct (Nat.ltb 0 (length (cleanedEmails emails))); [apply alike_appendFileSync|apply alike_ret].
  - apply alike_bind; [apply alike_gets; now intros w1 w2 (_ & _ & H & _)|].
    intros out. apply alike_appendFileSync.
Qed.

(** The total of the progress line does not matter to what a record does
    to the outputs. *)
Lemma alike_process_record E total1 total2 i record :
  alike (process_record E total1 i record) (process_record E total2 i record).
Proof.
  unfold process_record. destruct (site_of record) as [[|c site]|]; try apply alike_ret.
  apply alike_bind.
  - unfold new_URL_hostname. destruct (url_hostname E _); [apply alike_ret|apply alike_throw].
  - intros host. apply alike_bind; [apply alike_sendProgress|].
    intros _. apply alike_bind; [apply alike_probe_site|].
    intros emails. apply alike_classify.
Qed.

(** ** Cancellation *)

Lemma websites_loop_inactive E sched total i rest w :
  isScraping w = false -> websites_loop E sched total i rest w = (Ok tt, w).
Proof. intros H. destruct rest; [reflexivity|]. simpl. run. now rewrite H. Qed.

Lemma websites_loop_step E sched total i record rest w :
  isScraping w = true ->
  websites_loop E sched total i (record :: rest) w =
  match process_record E total i record w with
  | (Ok _, w') =>
      websites_loop E sched total (S i) rest (serve_stop (stop_after sched i) w').2
  | (Throw e, w') => (Throw e, w')
  end.
Proof.
  intros H. simpl. run. rewrite H. simpl. run.
  destruct (process_record E total i record w) as [[[]|e] w']; [|reflexivity].
  unfold serve_stop. destruct (stop_after sched i); reflexivity.
Qed.

(** A loop stopped after its record [k] against the loop over the records
    up to [k] that nobody stops: the same end, the same files, the same
    probes. *)
Lemma loop_cancelled E sched total1 total2 k :
  forall rest i w1 w2,
    (forall j, i <= j < i + k -> stop_after sched j = false) ->
    stop_after sched (i + k) = true ->
    k < length rest ->
    same_core w1 w2 ->
    (websites_loop E sched total1 i rest w1).1
    = (websites_loop E never_stop total2 i (take (S k) rest) w2).1 /\
    same_outputs (websites_loop E sched total1 i rest w1).2
                 (websites_loop E never_stop total2 i (take (S k) rest) w2).2.
Proof.
  induction k as [|k IH]; intros [|record rest] i w1 w2 Hbefore Hstop Hlen Hw;
    simpl in Hlen; try lia.
  - (* the record after which the stop is served *)
    rewrite Nat.add_0_r in Hstop.
    destruct (isScraping w1) eqn:Hactive.
    + assert (Hactive2 : isScraping w2 = true) by (destruct Hw as [<- _]; exact Hactive).
      rewrite firstn_cons, take_0, !websites_loop_step by assumption.
      destruct (alike_process_record E total1 total2 i record w1 w2 Hw) as [Hres Hcore].
      destruct (process_record E total1 i record w1) as [r1 w1'],
               (process_record E total2 i record w2) as [r2 w2']; simpl in *. subst r2.
      destruct r1 as [[]|e]; [|split; [reflexivity|now apply same_core_outputs]].
      rewrite Hstop. simpl.
      rewrite websites_loop_inactive by reflexivity. simpl.
      split; [reflexivity|]. apply same_core_outputs in Hcore. exact Hcore.
    + assert (Hactive2 : isScraping w2 = false) by (destruct Hw as [<- _]; exact Hactive).
      rewrite !websites_loop_inactive by assumption.
      split; [reflexivity|now apply same_core_outputs].
  - destruct (isScraping w1) eqn:Hactive.
    + assert (Hactive2 : isScraping w2 = true) by (destruct Hw as [<- _]; exact Hactive).
      rewrite firstn_cons, !websites_loop_step by assumption.
      destruct (alike_process_record E total1 total2 i record w1 w2 Hw) as [Hres Hcore].
      destruct (process_record E total1 i record w1) as [r1 w1'],
               (process_record E total2 i record w2) as [r2 w2']; simpl in *. subst r2.
      destruct r1 as [[]|e]; [|split; [reflexivity|now apply same_core_outputs]].
      rewrite (Hbefore i) by lia. simpl.
      apply IH; auto; [|now replace (S i + k) with (i + S k) by lia|lia].
      intros j Hj. apply Hbefore. lia.
    + assert (Hactive2 : isScraping w2 = false) by (destruct Hw as [<- _]; exact Hactive).
      rewrite !websites_loop_inactive by assumption.
      split; [reflexivity|now apply same_core_outputs].
Qed.

(** Lines 139 to 149, then the rest of the function. *)
Lemma scrapeWebsites_entry E iso (rest : M unit) w :
  (modify (set_isScraping true);;
   serve_stop false;;
   modify (set_lastOutputFile
             (path_join (downloadDir E) ("Emails_" +:+ dashes iso +:+ ".csv")));;
   modify (set_lastNotFoundFile
             (path_join (downloadDir E) ("Notfound_" +:+ dashes iso +:+ ".txt")));;
   out ← gets lastOutputFile;
   writeFileSync out header;;
   rest) w
  = rest (loop_entry E iso w).
Proof. reflexivity. Qed.

Lemma scrapeWebsites_run E sched iso websites w :
  stop_at_launch sched = false ->
  scrapeWebsites E sched iso websites w =
  match websites_loop E sched (length websites) 0 websites (loop_entry E iso w) with
  | (Ok _, w') => (Ok tt, loop_exit w')
  | (Throw e, w') => (Throw e, w')
  end.
Proof.
  intros Hlaunch. unfold scrapeWebsites. rewrite Hlaunch.
  etransitivity; [apply scrapeWebsites_entry|].
  rewrite run_bind.
  destruct (websites_loop E sched (length websites) 0 websites (loop_entry E iso w))
    as [[[]|e] w']; reflexivity.
Qed.

Lemma resolved_paths E site paths :
  Forall (fun path => is_Some (url_href E path site)) paths ->
  exists hrefs, Forall2 (fun path href => url_href E path site = Some href) paths hrefs.
Proof.
  induction 1 as [|path paths [href Hhref] _ [hrefs IH]].
  - exists []. constructor.
  - exists (href :: hrefs). now constructor.
Qed.

Lemma classify_returns record domain emails w :
  exists w', classify record domain emails w = (Ok tt, w').
Proof.
  unfold classify. destruct (Nat.ltb 0 (length emails)); run.
  - destruct (writeEmailToCSV_run (lastOutputFile w) record emails w) as (w' & H & _). eauto.
  - destruct (writeNotFoundDomain_run (lastNotFoundFile w) domain w) as (w' & H & _). eauto.
Qed.

Lemma probe_site_returns E site w :
  Forall (fun path => is_Some (url_href E path site)) contactPaths ->
  exists emails w', probe_site E site w = (Ok emails, w').
Proof.
  intros Hpaths. unfold probe_site. rewrite run_bind.
  destruct (scrapeEmails_run E site w) as (w1 & -> & _).
  destruct (Nat.ltb 0 (length _)); [rewrite run_ret; eauto|].
  destruct (resolved_paths _ _ _ Hpaths) as [hrefs Hhrefs].
  destruct (scrapeContactPaths_run E site contactPaths hrefs Hhrefs w1)
    as (w2 & ops & Hrest & _).
  unfold scrapeContactPages. rewrite Hrest. eauto.
Qed.

Lemma process_record_returns E total i record w :
  well_formed E record -> exists w', process_record E total i record w = (Ok tt, w').
Proof.
  unfold well_formed.
  destruct (site_of record) as [[|c site]|] eqn:Hsite;
    try (intros _; exists w; unfold process_record; now rewrite Hsite).
  intros [[host Hhost] Hpaths].
  rewrite (process_record_run E total i record (String c site) host w Hsite) by easy.
  destruct (probe_site_returns E (String c site)
              (sendProgress (progress_line (String c site) i total) w).2 Hpaths)
    as (emails & w2 & ->).
  apply classify_returns.
Qed.

Lemma websites_loop_returns E sched total rest :
  Forall (well_formed E) rest ->
  forall i w, exists w', websites_loop E sched total i rest w = (Ok tt, w').
Proof.
  induction 1 as [|record rest Hrecord _ IH]; intros i w; [exists w; reflexivity|].
  destruct (isScraping w) eqn:Hactive.
  - rewrite websites_loop_step by exact Hactive.
    destruct (process_record_returns E total i record w Hrecord) as [w1 ->].
    apply IH.
  - exists w. now apply websites_loop_inactive.
Qed.

(** A run over well-formed records returns. *)
Lemma scrapeWebsites_returns E sched iso websites w :
  stop_at_launch sched = false ->
  Forall (well_formed E) websites ->
  exists w', scrapeWebsites E sched iso websites w = (Ok tt, w').
Proof.
  intros Hlaunch Hall. rewrite scrapeWebsites_run by exact Hlaunch.
  destruct (websites_loop_returns E sched (length websites) websites Hall 0 (loop_entry E iso w))
    as [w' ->]. eauto.
Qed.

(** A run whose first stop request is served after record [k] and before
    record [k + 1] ends as the run over records [0] to [k] alone, never
    stopped, ends, with the same files under the same names and the same
    probes and browser calls. When records [0] to [k] are well formed, the
    run returns, the flag is false afterwards and the last progress event
    is ["Scraping complete."]. *)
Lemma stopped_run_like_prefix (E : Env) (sched : Schedule) (iso : string)
    (websites : list CsvRecord) (k : nat) (w : World) :
  k < length websites ->
  stop_at_launch sched = false ->
  (forall j, j < k -> stop_after sched j = false) ->
  stop_after sched k = true ->
  let stopped := scrapeWebsites E sched iso websites w in
  let upto_k := scrapeWebsites E never_stop iso (take (S k) websites) w in
  stopped.1 = upto_k.1 /\
  lastOutputFile stopped.2 = lastOutputFile upto_k.2 /\
  lastNotFoundFile stopped.2 = lastNotFoundFile upto_k.2 /\
  fs stopped.2 = fs upto_k.2 /\
  probes stopped.2 = probes upto_k.2 /\
  browser_ops stopped.2 = browser_ops upto_k.2 /\
  (Forall (well_formed E) (take (S k) websites) ->
     stopped.1 = Ok tt /\
     isScraping stopped.2 = false /\
     last (published stopped.2) = Some "Scraping complete.").
Proof.
  intros Hk Hlaunch Hbefore Hstop stopped upto_k.
  assert (Hsame : stopped.1 = upto_k.1 /\ same_outputs stopped.2 upto_k.2 /\
                  (stopped.1 = Ok tt ->
                   isScraping stopped.2 = false /\
                   last (published stopped.2) = Some "Scraping complete.")).
  { subst stopped upto_k. rewrite !scrapeWebsites_run by easy.
    destruct (loop_cancelled E sched (length websites) (length (take (S k) websites)) k
                websites 0 (loop_entry E iso w) (loop_entry E iso w))
      as [Hres Hout]; auto using same_core_refl.
    { intros j Hj. apply Hbefore. lia. }
    destruct (websites_loop E sched _ 0 websites _) as [r1 w1],
             (websites_loop E never_stop _ 0 (take (S k) websites) _) as [r2 w2];
      simpl in *. subst r2.
    destruct r1 as [[]|e]; simpl.
    - split; [reflexivity|]. split.
      + destruct Hout as (H1 & H2 & H3 & H4 & H5).
        unfold same_outputs; simpl. rewrite H5. auto 10.
      + intros _. split; [reflexivity|]. apply last_snoc.
    - split; [reflexivity|]. split; [exact Hout|discriminate]. }
  destruct Hsame as (Hres & (H1 & H2 & H3 & H4 & H5) & Hdone).
  repeat (split; [assumption|]).
  intros Hall.
  destruct (scrapeWebsites_returns E never_stop iso (take (S k) websites) w eq_refl Hall)
    as [w' Hret].
  assert (Hok : stopped.1 = Ok tt) by (rewrite Hres; subst upto_k; now rewrite Hret).
  split; [exact Hok|]. now apply Hdone.
Qed.

(** The scenario of the specification: two records, a stop requested
    after the first; the outputs hold the first record only, the flag is
    false and the completion event is the last one published. *)
Example stop_after_first_record :
  let E := demo_env [("https://a.example", page_with ["mailto:info@a.example"])] in
  let first := business "First" "1 Main St" "https://a.example" in
  let second := business "Second" "2 Main St" "https://b.example" in
  let run := scrapeWebsites E (mkSchedule false (fun i => Nat.eqb i 0)) demo_iso
               [first; second] idle in
  run.1 = Ok tt /\
  rows_of (file run.2 demo_emails) = [csvRow first "info@a.example"] /\
  fs run.2 !! demo_notfound = None /\
  probes run.2 = ["https://a.example"] /\
  isScraping run.2 = false /\
  published run.2 = [ "Scraping: https://a.example (1/2)";
                      "Scraping stopped by user."; "Scraping complete." ].
Proof. vm_compute. repeat split; reflexivity. Qed.

(** ** Scenarios of the specification *)

Example cleanEmail_query :
  cleanEmail "Info@A.example?subject=hi" = "Info@A.example".
Proof. reflexivity. Qed.

Example cleanEmail_spaces : cleanEmail "  a@b.c  ?x" = "a@b.c".
Proof. reflexivity. Qed.

Example replace_leading_www : Str.replace "www." "" "www.b.example" = "b.example".
Proof. reflexivity. Qed.

Example replace_first_only : Str.replace "www." "" "www.a.www.b" = "a.www.b".
Proof. reflexivity. Qed.

(** One record whose main page links to [Info@A.example?subject=hi]. *)
Example scenario_matched :
  let record := business "A" "1 Main St" "https://a.example" in
  let E := demo_env [("https://a.example",
                      page_with ["mailto:Info@A.example?subject=hi"])] in
  let run := scrapeWebsites E never_stop demo_iso [record] idle in
  run.1 = Ok tt /\
  file run.2 demo_emails = [Text header; Csv [csvRow record "Info@A.example"]] /\
  fs run.2 !! demo_notfound = None.
Proof. vm_compute. repeat split; reflexivity. Qed.

(** One record whose main page and ten contact pages yield nothing. *)
Example scenario_unmatched :
  let record := business "B" "2 Main St" "https://b.example" in
  let run := scrapeWebsites (demo_env []) never_stop demo_iso [record] idle in
  run.1 = Ok tt /\
  file run.2 demo_notfound = [Text (line "b.example")] /\
  file run.2 demo_emails = [Text header] /\
  length (probes run.2) = 11.
Proof. vm_compute. repeat split; reflexivity. Qed.

(** * Further properties of the code *)

(** ** Cleaning an address *)

Lemma includes_trimStart c s :
  Str.includes c (Str.trimStart s) = true -> Str.includes c s = true.
Proof.
  induction s as [|d s IH]; simpl; [auto|].
  destruct (Str.is_space d); [|auto].
  intros H. rewrite (IH H). apply orb_true_r.
Qed.

Lemma includes_trimEnd c s :
  Str.includes c (Str.trimEnd s) = true -> Str.includes c s = true.
Proof.
  induction s as [|d s IH]; simpl; [auto|].
  destruct (Str.trimEnd s) as [|e kept].
  - destruct (Str.is_space d); simpl; [discriminate|].
    rewrite orb_false_r. intros ->. reflexivity.
  - intros H. change (Str.includes c (String d (String e kept)))
      with (Ascii.eqb d c || Str.includes c (String e kept)) in H.
    apply orb_true_iff in H as [->|H]; [reflexivity|].
    rewrite (IH H). apply orb_true_r.
Qed.

Lemma split_without sep s : Str.includes sep s = false -> Str.split sep s = [s].
Proof.
  induction s as [|c s IH]; simpl; [reflexivity|].
  intros [Hc Hs]%orb_false_iff. rewrite Hc, (IH Hs). reflexivity.
Qed.

Lemma trimStart_id s :
  (forall c, Str.first_char s = Some c -> Str.is_space c = false) ->
  Str.trimStart s = s.
Proof. destruct s as [|c s]; simpl; [reflexivity|]. intros H. now rewrite (H c). Qed.

Lemma trimEnd_id s :
  (forall c, Str.last_char s = Some c -> Str.is_space c = false) ->
  Str.trimEnd s = s.
Proof.
  induction s as [|c s IH]; [reflexivity|].
  cbn [Str.trimEnd Str.last_char]. intros H.
  destruct s as [|d s].
  - simpl in *. now rewrite (H c).
  - rewrite IH; [reflexivity|].
    intros e He. apply H. now rewrite He.
Qed.

Lemma trim_trim s : Str.trim (Str.trim s) = Str.trim s.
Proof.
  unfold Str.trim.
  destruct (trimStart_spec s) as (l & _ & _ & Hfirst).
  destruct (trimEnd_spec (Str.trimStart s)) as (r & _ & _ & Hlast).
  rewrite (trimStart_id (Str.trimEnd (Str.trimStart s))).
  - now apply trimEnd_id.
  - intros c Hc. apply Hfirst. now apply trimEnd_first.
Qed.

(** X1. A cleaned address holds no [?], and cleaning it again changes
    nothing. *)
Theorem cleanEmail_idempotent (email : string) :
  Str.includes "?" (cleanEmail email) = false /\
  cleanEmail (cleanEmail email) = cleanEmail email.
Proof.
  assert (Hno : Str.includes "?" (cleanEmail email) = false).
  { unfold cleanEmail.
    destruct (split_head "?" email) as (piece & pieces & after & -> & _ & Hno & _).
    destruct (Str.includes "?" (Str.trim piece)) eqn:H; [|reflexivity].
    unfold Str.trim in H. apply includes_trimEnd, includes_trimStart in H. congruence. }
  split; [exact Hno|].
  unfold cleanEmail at 1. rewrite (split_without _ _ Hno).
  unfold cleanEmail. destruct (Str.split "?" email); [reflexivity|apply trim_trim].
Qed.

(** ** The names of the outputs *)

Lemma dashes_free c iso :
  c = ":"%char \/ c = "."%char -> Str.includes c (dashes iso) = false.
Proof.
  intros Hc. induction iso as [|d iso IH]; simpl; [reflexivity|].
  rewrite IH, orb_false_r.
  destruct (Ascii.eqb d ":" || Ascii.eqb d ".") eqn:Hd.
  - destruct Hc as [->| ->]; reflexivity.
  - apply orb_false_iff in Hd as [H1 H2]. destruct Hc as [->| ->]; assumption.
Qed.

(** X2. The time stamp in the names of the outputs has the length of the
    ISO time it comes from, holds neither [:] nor [.], and keeps every
    other character in its place. *)
Theorem timestamp_is_file_safe (iso : string) :
  String.length (dashes iso) = String.length iso /\
  Str.includes ":" (dashes iso) = false /\
  Str.includes "." (dashes iso) = false /\
  (forall n c, String.get n iso = Some c -> c <> ":"%char -> c <> "."%char ->
               String.get n (dashes iso) = Some c).
Proof.
  split; [induction iso; simpl; congruence|].
  split; [apply dashes_free; auto|]. split; [apply dashes_free; auto|].
  induction iso as [|d iso IH]; intros n c; [discriminate|].
  destruct n as [|n]; simpl.
  - intros [= ->] H1 H2.
    apply Ascii.eqb_neq in H1, H2. now rewrite H1, H2.
  - apply IH.
Qed.

(** ** More on the site prober *)

Lemma spread_set_sublist (seen xs : list string) : sublist (spread_set seen xs) xs.
Proof.
  revert seen. induction xs as [|x xs IH]; intros seen; simpl; [constructor|].
  case_bool_decide; [apply sublist_cons|apply sublist_skip]; apply IH.
Qed.

Lemma spread_set_distinct (seen xs : list string) :
  NoDup xs -> (forall x, x ∈ xs -> x ∉ seen) -> spread_set seen xs = xs.
Proof.
  revert seen. induction xs as [|x xs IH]; intros seen Hnodup Hfresh; simpl; [reflexivity|].
  apply NoDup_cons in Hnodup as [Hx Hnodup].
  rewrite bool_decide_eq_false_2 by (apply Hfresh; left).
  f_equal. apply IH; [exact Hnodup|].
  intros y Hy. rewrite not_elem_of_cons. split.
  - intros ->. contradiction.
  - apply Hfresh. now right.
Qed.

(** X3. The addresses a probe returns stand in the order of the page's
    links: they are a subsequence of the extracted addresses; when the
    page works and its addresses are distinct, they are returned as they
    are. *)
Theorem probe_keeps_page_order (E : Env) (url : string) (w : World) :
  let page := web E (length (probes w)) url in
  exists (emails : list string) (w' : World),
    scrapeEmails E url w = (Ok emails, w') /\
    forall hrefs, mailto_hrefs page = Some hrefs ->
      sublist emails (mailto_address <$> hrefs) /\
      (newPage_ok page = true -> setUserAgent_ok page = true -> goto_ok page = true ->
       NoDup (mailto_address <$> hrefs) -> emails = mailto_address <$> hrefs).
Proof.
  intros page.
  destruct (scrapeEmails_run E url w) as (w' & Hrun & _). fold page in Hrun.
  exists (probe_result page), w'. split; [exact Hrun|].
  intros hrefs Hhrefs. unfold probe_result. rewrite Hhrefs. split.
  - destruct (_ && _); [apply spread_set_sublist|apply sublist_nil_l].
  - intros -> -> -> Hnodup. simpl. apply spread_set_distinct; [exact Hnodup|].
    intros x _. apply not_elem_of_nil.
Qed.

Ltac absent :=
  let H := fresh in
  intros H; repeat (apply elem_of_cons in H as [H|H]; [discriminate H|]);
  now apply elem_of_nil in H.

Ltac present := repeat first [apply list_elem_of_here | apply list_elem_of_further].

(** X4. A probe opens one page and closes it at most once: exactly when
    the navigation was reached and either failed or was followed by a
    successful read. A page whose [setUserAgent] or [evaluate] rejects is
    left open, and the probe returns the empty list. *)
Theorem probe_closes_page (E : Env) (url : string) (w : World) :
  let page := web E (length (probes w)) url in
  exists (emails : list string) (w' : World) (ops : list BrowserOp),
    scrapeEmails E url w = (Ok emails, w') /\
    browser_ops w' = browser_ops w ++ NewPage :: ops /\
    (NewPage ∉ ops) /\
    ((ClosePage ∈ ops) <->
       (newPage_ok page = true /\ setUserAgent_ok page = true /\
        (goto_ok page = false \/ is_Some (mailto_hrefs page)))) /\
    (forall before after, ops = before ++ ClosePage :: after -> after = []) /\
    (ClosePage ∉ ops -> emails = []).
Proof.
  intros page.
  destruct (scrapeEmails_run E url w) as (w' & Hrun & Hprobed). fold page in Hrun, Hprobed.
  apply probed_browser_ops in Hprobed.
  exists (probe_result page), w', (tail (probe_ops page url)).
  split; [exact Hrun|]. split; [exact Hprobed|].
  unfold probe_result, probe_ops.
  destruct page as [np ua gt hrefs cl]; simpl.
  destruct np, ua, gt, hrefs as [hrefs|]; simpl;
    (split; [absent|]);
    (split; [split; [intros Hin; first [now auto 6 | exfalso; revert Hin; absent]
                    |intros (? & ? & [?|[? ?]]); first [discriminate | present]]|]);
    (split; [|intros Hout; first [reflexivity | exfalso; apply Hout; present]]);
    intros before after Heq;
    repeat (destruct before as [|? before]; simplify_eq/=; try reflexivity).
Qed.

(** ** One record, case by case *)

Lemma scrapeContactPaths_bound E mainUrl paths w :
  exists res w' urls ops,
    scrapeContactPaths E paths mainUrl w = (res, w') /\
    probed w w' urls ops /\ length urls <= length paths /\
    (forall emails, res = Ok emails -> NoDup emails).
Proof.
  revert w. induction paths as [|path paths IH]; intros w; simpl.
  - exists (Ok []), w, [], []. repeat split; [apply probed_refl|simpl; lia|].
    intros emails [= <-]. constructor.
  - unfold new_URL_href. destruct (url_href E path mainUrl) as [href|]; run.
    + destruct (scrapeEmails_run E href w) as (w1 & Hrun & Hprobed).
      rewrite Hrun. cbn beta iota.
      destruct (probe_result (web E (length (probes w)) href)) as [|x r] eqn:Hr; simpl.
      * destruct (IH w1) as (res & w' & urls & ops & Hrest & Hprobed' & Hlen & Hnodup).
        exists res, w', ([href] ++ urls), (probe_ops (web E (length (probes w)) href) href ++ ops).
        repeat split; auto; [now apply (probed_trans _ _ _ _ _ _ _ Hprobed)|simpl; lia].
      * exists (Ok (x :: r)), w1, [href], (probe_ops (web E (length (probes w)) href) href).
        repeat split; auto; [simpl; lia|].
        intros emails [= <-]. rewrite <- Hr. apply probe_result_NoDup.
    + exists (Throw (InvalidURL mainUrl)), w, [], [].
      repeat split; [apply probed_refl|simpl; lia|discriminate].
Qed.

Lemma probe_site_bound E site w :
  exists res w' urls ops,
    probe_site E site w = (res, w') /\
    probed w w' (site :: urls) ops /\ length urls <= 10 /\
    (forall emails, res = Ok emails -> NoDup emails).
Proof.
  unfold probe_site. run.
  destruct (scrapeEmails_run E site w) as (w1 & Hrun & Hprobed).
  rewrite Hrun. cbn beta iota.
  destruct (probe_result (web E (length (probes w)) site)) as [|x r] eqn:Hr; simpl.
  - destruct (scrapeContactPaths_bound E site contactPaths w1)
      as (res & w' & urls & ops & Hrest & Hprobed' & Hlen & Hnodup).
    exists res, w', urls, (probe_ops (web E (length (probes w)) site) site ++ ops).
    repeat split; auto. now apply (probed_trans _ _ _ [site] _ _ _ Hprobed).
  - exists (Ok (x :: r)), w1, [], (probe_ops (web E (length (probes w)) site) site).
    repeat split; auto; [simpl; lia|].
    intros emails [= <-]. rewrite <- Hr. apply probe_result_NoDup.
Qed.

(** What [classify] leaves behind: nothing, a piece of rows in the matched
    output, or a line in the unmatched output. *)
Lemma classify_cases record domain emails w :
  (emails <> [] /\ cleanedEmails emails = [] /\
   classify record domain emails w = (Ok tt, w)) \/
  (emails <> [] /\ cleanedEmails emails <> [] /\
   classify record domain emails w =
   (Ok tt, set_fs (<[lastOutputFile w :=
                      file w (lastOutputFile w)
                      ++ [Csv (csvRow record <$> cleanedEmails emails)]]> (fs w)) w)) \/
  (emails = [] /\
   classify record domain emails w =
   (Ok tt, set_fs (<[lastNotFoundFile w :=
                      file w (lastNotFoundFile w) ++ [Text (line domain)]]> (fs w)) w)).
Proof.
  unfold classify. destruct emails as [|e emails]; cbn [length Nat.ltb Nat.leb]; run.
  - right. right. split; reflexivity.
  - unfold writeEmailToCSV.
    destruct (cleanedEmails (e :: emails)) as [|a l] eqn:Hc; simpl.
    + left. repeat split; auto; discriminate.
    + right. left. repeat split; auto; discriminate.
Qed.

(** A record is skipped, or its URL does not parse, or it is announced,
    probed with its site first and at most ten contact pages after, and,
    unless a contact path fails to resolve, classified. *)
Lemma process_record_cases E total i record w :
  ((site_of record = None \/ site_of record = Some EmptyString) /\
   process_record E total i record w = (Ok tt, w)) \/
  (exists site,
     site_of record = Some site /\ site <> EmptyString /\
     url_hostname E site = None /\
     process_record E total i record w = (Throw (InvalidURL site), w)) \/
  (exists site host res w2 urls ops,
     site_of record = Some site /\ site <> EmptyString /\
     url_hostname E site = Some host /\
     probe_site E site (sendProgress (progress_line site i total) w).2 = (res, w2) /\
     probed (sendProgress (progress_line site i total) w).2 w2 (site :: urls) ops /\
     length urls <= 10 /\
     match res with
     | Ok emails =>
         NoDup emails /\
         process_record E total i record w
         = classify record (Str.replace "www." "" host) emails w2
     | Throw e => process_record E total i record w = (Throw e, w2)
     end).
Proof.
  destruct (site_of record) as [[|c site]|] eqn:Hsite.
  - left. split; [auto|]. unfold process_record. now rewrite Hsite.
  - destruct (url_hostname E (String c site)) as [host|] eqn:Hhost.
    + right. right.
      destruct (probe_site_bound E (String c site)
                  (sendProgress (progress_line (String c site) i total) w).2)
        as (res & w2 & urls & ops & Hrun & Hprobed & Hlen & Hnodup).
      exists (String c site), host, res, w2, urls, ops.
      repeat (split; [easy|]).
      rewrite (process_record_run E total i record (String c site) host w Hsite) by easy.
      rewrite Hrun. destruct res; auto.
    + right. left. exists (String c site). repeat (split; [easy|]).
      unfold process_record, new_URL_hostname. now rewrite Hsite, Hhost.
  - left. split; [auto|]. unfold process_record. now rewrite Hsite.
Qed.

(** ** What a run does to the state *)

Lemma deliver_all_app (m1 m2 : list string) (c : Client) :
  deliver_all (m1 ++ m2) c = deliver_all m2 (deliver_all m1 c).
Proof. unfold deliver_all. apply fold_left_app. Qed.

Lemma deliver_all_state (msgs : list string) (c : Client) :
  deliver_all msgs c =
  if Nat.eqb (readyState c) 1 then mkClient (readyState c) (received c ++ msgs) else c.
Proof.
  revert c. induction msgs as [|m msgs IH]; intros c.
  - simpl. destruct (Nat.eqb _ _); [|reflexivity]. rewrite app_nil_r. now destruct c.
  - change (deliver_all (m :: msgs) c) with (deliver_all msgs (deliver m c)).
    rewrite IH. unfold deliver.
    destruct (Nat.eqb (readyState c) 1) eqn:Hopen; simpl; rewrite Hopen; [|reflexivity].
    now rewrite <- app_assoc.
Qed.

Lemma files_grown_refl w : files_grown w w.
Proof. unfold files_grown. auto. Qed.

Lemma files_grown_same w w' :
  lastOutputFile w' = lastOutputFile w -> lastNotFoundFile w' = lastNotFoundFile w ->
  fs w' = fs w -> files_grown w w'.
Proof. intros Ho Hn Hfs. unfold files_grown. rewrite Hfs. auto. Qed.

Lemma files_grown_trans w1 w2 w3 :
  files_grown w1 w2 -> files_grown w2 w3 -> files_grown w1 w3.
Proof.
  intros (Ho1 & Hn1 & H1) (Ho2 & Hn2 & H2).
  split; [congruence|]. split; [congruence|].
  intros path. destruct (H1 path) as [Hsame1|(p1 & Hne1 & Hp1 & Hin1)],
                        (H2 path) as [Hsame2|(p2 & Hne2 & Hp2 & Hin2)].
  - left. congruence.
  - right. exists p2. split; [exact Hne2|]. split.
    + rewrite Hp2. unfold file. now rewrite Hsame1.
    + eapply Forall_impl; [exact Hin2|].
      intros [s|rows]; simpl; congruence.
  - right. exists p1. split; [exact Hne1|]. split; [congruence|exact Hin1].
  - right. exists (p1 ++ p2). split; [|split].
    + destruct p1; [congruence|discriminate].
    + rewrite Hp2. unfold file at 1. rewrite Hp1. simpl. now rewrite app_assoc.
    + apply Forall_app. split; [exact Hin1|].
      eapply Forall_impl; [exact Hin2|].
      intros [s|rows]; simpl; congruence.
Qed.

Lemma effect_refl w : effect 0 w w.
Proof.
  split; [|split].
  - exists []. rewrite app_nil_r. split; [reflexivity|].
    now rewrite list_fmap_id.
  - exists []. rewrite app_nil_r. auto.
  - apply files_grown_refl.
Qed.

Lemma effect_trans n m w1 w2 w3 :
  effect n w1 w2 -> effect m w2 w3 -> effect (n + m) w1 w3.
Proof.
  intros ((m1 & Hp1 & Hc1) & (u1 & Hl1 & Hu1) & Hf1)
         ((m2 & Hp2 & Hc2) & (u2 & Hl2 & Hu2) & Hf2).
  split; [|split].
  - exists (m1 ++ m2). rewrite Hp2, Hp1, Hc2, Hc1, <- app_assoc. split; [reflexivity|].
    rewrite <- list_fmap_compose. apply list_fmap_ext.
    intros _ c _. simpl. now rewrite deliver_all_app.
  - exists (u1 ++ u2). rewrite length_app, Hu2, Hu1, <- app_assoc. split; [lia|reflexivity].
  - now apply (files_grown_trans w1 w2 w3).
Qed.

Lemma effect_weaken n m w w' : n <= m -> effect n w w' -> effect m w w'.
Proof.
  intros Hle (Hm & (urls & Hlen & Hu) & Hf).
  split; [exact Hm|]. split; [|exact Hf]. exists urls. split; [lia|exact Hu].
Qed.

Lemma effect_sendProgress message w : effect 0 w (sendProgress message w).2.
Proof.
  split; [|split].
  - exists [message]. split; reflexivity.
  - exists []. simpl. rewrite app_nil_r. auto.
  - now apply files_grown_same.
Qed.

Lemma effect_probed w w' urls ops :
  probed w w' urls ops -> effect (length urls) w w'.
Proof.
  intros ->. split; [|split].
  - exists []. simpl. rewrite app_nil_r. split; [reflexivity|].
    now rewrite list_fmap_id.
  - exists urls. auto.
  - now apply files_grown_same.
Qed.

Lemma effect_append w path piece :
  piece_in_place w path piece ->
  effect 0 w (set_fs (<[path := file w path ++ [piece]]> (fs w)) w).
Proof.
  intros Hplace. split; [|split].
  - exists []. simpl. rewrite app_nil_r. split; [reflexivity|].
    now rewrite list_fmap_id.
  - exists []. simpl. rewrite app_nil_r. auto.
  - split; [reflexivity|]. split; [reflexivity|].
    intros other. simpl. destruct (decide (path = other)) as [<-|Hne].
    + right. exists [piece]. rewrite lookup_insert_eq. split; [discriminate|auto].
    + left. now rewrite lookup_insert_ne.
Qed.

Lemma effect_classify record domain emails w :
  effect 0 w (classify record domain emails w).2 /\
  isScraping (classify record domain emails w).2 = isScraping w /\
  browser_ops (classify record domain emails w).2 = browser_ops w.
Proof.
  destruct (classify_cases record domain emails w)
    as [(_ & _ & ->)|[(_ & _ & ->)|(_ & ->)]]; simpl.
  - split; [apply effect_refl|auto].
  - split; [now apply effect_append|auto].
  - split; [now apply effect_append|auto].
Qed.

(** One record: at most one message, at most eleven probes, files grown
    in place; the flag is left alone. *)
Lemma effect_process_record E total i record w :
  effect 11 w (process_record E total i record w).2 /\
  isScraping (process_record E total i record w).2 = isScraping w.
Proof.
  destruct (process_record_cases E total i record w)
    as [(_ & ->)|[(site & _ & _ & _ & ->)
       |(site & host & res & w2 & urls & ops & _ & _ & _ & _ & Hprobed & Hlen & Hres)]].
  - split; [|reflexivity]. apply (effect_weaken 0); [lia|apply effect_refl].
  - split; [|reflexivity]. apply (effect_weaken 0); [lia|apply effect_refl].
  - assert (Hw2 : effect 11 w w2).
    { apply (effect_weaken (0 + length (site :: urls))); [simpl; lia|].
      eapply effect_trans; [apply (effect_sendProgress (progress_line site i total))|].
      exact (effect_probed _ _ _ ops Hprobed). }
    assert (Hflag : isScraping w2 = isScraping w).
    { now apply probed_frame in Hprobed as (-> & _). }
    destruct res as [emails|e].
    + destruct Hres as [_ ->].
      destruct (effect_classify record (Str.replace "www." "" host) emails w2)
        as (Hc & Hf & _).
      split; [|congruence].
      apply (effect_weaken (11 + 0)); [lia|]. now apply (effect_trans _ _ w w2).
    + rewrite Hres. auto.
Qed.

Lemma effect_serve_stop requested w : effect 0 w (serve_stop requested w).2.
Proof.
  destruct requested; [|apply effect_refl].
  split; [|split].
  - exists ["Scraping stopped by user."]. split; reflexivity.
  - exists []. simpl. rewrite app_nil_r. auto.
  - now apply files_grown_same.
Qed.

Lemma effect_websites_loop E sched total rest :
  forall i w, effect (11 * length rest) w (websites_loop E sched total i rest w).2.
Proof.
  induction rest as [|record rest IH]; intros i w.
  - apply (effect_weaken 0); [lia|apply effect_refl].
  - destruct (isScraping w) eqn:Hactive.
    + rewrite websites_loop_step by exact Hactive.
      destruct (effect_process_record E total i record w) as [Hrec _].
      destruct (process_record E total i record w) as [[[]|e] w1]; simpl in Hrec.
      * apply (effect_weaken (11 + (0 + 11 * length rest))); [simpl; lia|].
        eapply effect_trans; [exact Hrec|].
        eapply effect_trans; [apply effect_serve_stop|apply IH].
      * apply (effect_weaken 11); [simpl; lia|exact Hrec].
    + rewrite websites_loop_inactive by exact Hactive.
      apply (effect_weaken 0); [lia|apply effect_refl].
Qed.

(** Lines 139 to 149 for any schedule, then the rest of the function. *)
Lemma scrapeWebsites_launched E sched iso websites w :
  scrapeWebsites E sched iso websites w =
  match websites_loop E sched (length websites) 0 websites (launched E sched iso w) with
  | (Ok _, w') => (Ok tt, loop_exit w')
  | (Throw e, w') => (Throw e, w')
  end.
Proof.
  unfold scrapeWebsites.
  set (rest := websites_loop E sched (length websites) 0 websites;; _).
  assert (Hentry : forall b,
    (modify (set_isScraping true);;
     serve_stop b;;
     modify (set_lastOutputFile
               (path_join (downloadDir E) ("Emails_" +:+ dashes iso +:+ ".csv")));;
     modify (set_lastNotFoundFile
               (path_join (downloadDir E) ("Notfound_" +:+ dashes iso +:+ ".txt")));;
     out ← gets lastOutputFile;
     writeFileSync out header;;
     rest) w
    = rest (launched E (mkSchedule b (stop_after sched)) iso w)).
  { intros []; reflexivity. }
  rewrite Hentry.
  replace (launched E (mkSchedule (stop_at_launch sched) (stop_after sched)) iso w)
    with (launched E sched iso w) by reflexivity.
  subst rest. rewrite run_bind.
  destruct (websites_loop E sched (length websites) 0 websites (launched E sched iso w))
    as [[[]|e] w']; reflexivity.
Qed.

Lemma append_inj_l (a x y : string) : a +:+ x = a +:+ y -> x = y.
Proof.
  induction a as [|c a IH]; [auto|].
  rewrite !append_cons. intros [= H]. auto.
Qed.

Lemma output_names_differ dir ts :
  path_join dir ("Emails_" +:+ ts +:+ ".csv")
  <> path_join dir ("Notfound_" +:+ ts +:+ ".txt").
Proof.
  unfold path_join. intros H.
  apply append_inj_l in H. rewrite !append_cons in H. discriminate.
Qed.

Lemma websites_loop_throw_active E sched total rest :
  forall i w e w',
    websites_loop E sched total i rest w = (Throw e, w') -> isScraping w' = true.
Proof.
  induction rest as [|record rest IH]; intros i w e w'; [discriminate|].
  destruct (isScraping w) eqn:Hactive.
  - rewrite websites_loop_step by exact Hactive.
    destruct (effect_process_record E total i record w) as [_ Hflag].
    destruct (process_record E total i record w) as [[[]|e1] w1]; simpl in Hflag.
    + apply IH.
    + intros [= _ <-]. congruence.
  - rewrite websites_loop_inactive by exact Hactive. discriminate.
Qed.

(** A run in two steps: the loop, from the state it is entered in, then
    the exit, unless the loop threw. *)
Lemma run_summary E sched iso websites w :
  exists w_loop,
    effect (11 * length websites) (launched E sched iso w) w_loop /\
    (scrapeWebsites E sched iso websites w = (Ok tt, loop_exit w_loop) \/
     exists e, scrapeWebsites E sched iso websites w = (Throw e, w_loop) /\
               isScraping w_loop = true).
Proof.
  rewrite scrapeWebsites_launched.
  pose proof (effect_websites_loop E sched (length websites) websites 0
                (launched E sched iso w)) as Heffect.
  pose proof (websites_loop_throw_active E sched (length websites) websites 0
                (launched E sched iso w)) as Hthrow.
  destruct (websites_loop E sched (length websites) 0 websites (launched E sched iso w))
    as [[[]|e] w_loop]; exists w_loop; (split; [exact Heffect|]).
  - left. reflexivity.
  - right. exists e. split; [reflexivity|]. now apply (Hthrow e).
Qed.

Lemma launched_progress E sched iso w :
  exists msgs,
    published (launched E sched iso w) = published w ++ msgs /\
    clients (launched E sched iso w) = deliver_all msgs <$> clients w /\
    (stop_at_launch sched = false -> msgs = []) /\
    (stop_at_launch sched = true -> msgs = ["Scraping stopped by user."]).
Proof.
  unfold launched. destruct (stop_at_launch sched); simpl.
  - exists ["Scraping stopped by user."]. repeat split; auto. discriminate.
  - exists []. rewrite app_nil_r, list_fmap_id. repeat split; auto. discriminate.
Qed.

(** X5. Every open client (ready state 1) is sent exactly the messages
    the run publishes, in the order they are published; the other clients
    are sent nothing, and no client is added or dropped. When the run
    returns, the last of these messages is ["Scraping complete."]. *)
Theorem progress_reaches_open_clients (E : Env) (sched : Schedule) (iso : string)
    (websites : list CsvRecord) (w : World) :
  let run := scrapeWebsites E sched iso websites w in
  exists msgs : list string,
    published run.2 = published w ++ msgs /\
    clients run.2 =
      (fun c => if Nat.eqb (readyState c) 1
                then mkClient (readyState c) (received c ++ msgs) else c)
      <$> clients w /\
    (run.1 = Ok tt -> last msgs = Some "Scraping complete.").
Proof.
  intros run.
  assert (Hall : exists msgs, published run.2 = published w ++ msgs /\
                   clients run.2 = deliver_all msgs <$> clients w /\
                   (run.1 = Ok tt -> last msgs = Some "Scraping complete.")).
  { subst run.
    destruct (run_summary E sched iso websites w)
      as (w_loop & ((m1 & Hp1 & Hc1) & _ & _) & [Hrun|(e & Hrun & _)]);
      destruct (launched_progress E sched iso w) as (m0 & Hp0 & Hc0 & _);
      rewrite Hrun; simpl.
    - exists (m0 ++ m1 ++ ["Scraping complete."]).
      rewrite Hp1, Hp0, Hc1, Hc0, <- !app_assoc. split; [reflexivity|]. split.
      + rewrite <- !list_fmap_compose. apply list_fmap_ext.
        intros _ c _. simpl. rewrite !deliver_all_app. reflexivity.
      + intros _. rewrite !app_assoc. apply last_snoc.
    - exists (m0 ++ m1).
      rewrite Hp1, Hp0, Hc1, Hc0, <- !app_assoc. split; [reflexivity|]. split.
      + rewrite <- !list_fmap_compose. apply list_fmap_ext.
        intros _ c _. simpl. now rewrite deliver_all_app.
      + discriminate. }
  destruct Hall as (msgs & Hp & Hc & Hlast).
  exists msgs. split; [exact Hp|]. split; [|exact Hlast].
  rewrite Hc. apply list_fmap_ext. intros _ c _. apply deliver_all_state.
Qed.

(** X6. A run probes at most eleven URLs per record of its input: the
    site and the ten contact pages. *)
Theorem probes_bounded (E : Env) (sched : Schedule) (iso : string)
    (websites : list CsvRecord) (w : World) :
  exists urls : list string,
    probes (scrapeWebsites E sched iso websites w).2 = probes w ++ urls /\
    length urls <= 11 * length websites.
Proof.
  destruct (run_summary E sched iso websites w)
    as (w_loop & (_ & (urls & Hlen & Hu) & _) & [Hrun|(e & Hrun & _)]);
    rewrite Hrun; simpl; exists urls; rewrite Hu;
    (split; [|exact Hlen]); unfold launched; destruct (stop_at_launch sched); reflexivity.
Qed.

(** X7. The flag after a run. It is false after a run that returned.
    After a run during which no stop request was served and that ended
    with an exception it is still true, and the process keeps reporting a
    run in progress. *)
Theorem flag_after_run (E : Env) (sched : Schedule) (iso : string)
    (websites : list CsvRecord) (w : World) :
  let run := scrapeWebsites E sched iso websites w in
  (run.1 = Ok tt -> isScraping run.2 = false) /\
  (stop_at_launch sched = false -> (forall i, stop_after sched i = false) ->
   forall e, run.1 = Throw e ->
     isScraping run.2 = true /\
     get_scraping_status run.2
     = (Ok (mkResponse 200 [("isScraping", JBool true)]), run.2)).
Proof.
  intros run. subst run.
  destruct (run_summary E sched iso websites w)
    as (w_loop & _ & [Hrun|(e & Hrun & Hactive)]); rewrite Hrun; simpl.
  - split; [reflexivity|discriminate].
  - split; [discriminate|]. intros _ _ _ _. split; [exact Hactive|].
    unfold get_scraping_status. run. now rewrite Hactive.
Qed.

(** A run that ends with an exception, no stop request served: the flag
    stays true. *)
Example flag_after_malformed_url :
  let run := scrapeWebsites (demo_env []) never_stop demo_iso
               [business "Biz" "1 Main St" "not a url"] idle in
  run.1 = Throw (InvalidURL "not a url") /\
  get_scraping_status run.2
  = (Ok (mkResponse 200 [("isScraping", JBool true)]), run.2).
Proof. vm_compute. split; reflexivity. Qed.

Lemma launched_files E sched iso w :
  let out := path_join (downloadDir E) ("Emails_" +:+ dashes iso +:+ ".csv") in
  let notfound := path_join (downloadDir E) ("Notfound_" +:+ dashes iso +:+ ".txt") in
  lastOutputFile (launched E sched iso w) = out /\
  lastNotFoundFile (launched E sched iso w) = notfound /\
  fs (launched E sched iso w) = <[out := [Text header]]> (fs w).
Proof. unfold launched. destruct (stop_at_launch sched); simpl; auto. Qed.

(** X8. The files of a run. The two outputs have different names. The
    matched output is started afresh: it holds the header once, at its
    head, and after it only pieces of rows. The unmatched output is only
    appended to, by lines of text, and is left as it was (not even
    created) when no line is appended. No other file is touched. *)
Theorem run_files (E : Env) (sched : Schedule) (iso : string)
    (websites : list CsvRecord) (w : World) :
  let out := path_join (downloadDir E) ("Emails_" +:+ dashes iso +:+ ".csv") in
  let notfound := path_join (downloadDir E) ("Notfound_" +:+ dashes iso +:+ ".txt") in
  let w' := (scrapeWebsites E sched iso websites w).2 in
  out <> notfound /\
  lastOutputFile w' = out /\ lastNotFoundFile w' = notfound /\
  (forall path, path <> out -> path <> notfound -> fs w' !! path = fs w !! path) /\
  (exists pieces, fs w' !! out = Some (Text header :: pieces) /\
                  Forall (fun piece => exists rows, piece = Csv rows) pieces) /\
  (exists lines, file w' notfound = file w notfound ++ lines /\
                 Forall (fun piece => exists s, piece = Text s) lines /\
                 (lines = [] -> fs w' !! notfound = fs w !! notfound)).
Proof.
  intros out notfound w'.
  assert (Hdiff : out <> notfound) by apply output_names_differ.
  split; [exact Hdiff|].
  destruct (launched_files E sched iso w) as (Hout & Hnf & Hfs).
  fold out in Hout, Hfs. fold notfound in Hnf.
  assert (Hloop : exists w_loop,
            files_grown (launched E sched iso w) w_loop /\
            lastOutputFile w' = lastOutputFile w_loop /\
            lastNotFoundFile w' = lastNotFoundFile w_loop /\ fs w' = fs w_loop).
  { subst w'.
    destruct (run_summary E sched iso websites w)
      as (w_loop & (_ & _ & Hgrown) & [Hrun|(e & Hrun & _)]);
      rewrite Hrun; exists w_loop; auto. }
  destruct Hloop as (w_loop & (Ho & Hn & Hgrown) & -> & -> & Hfs').
  rewrite Ho, Hn, Hout, Hnf. split; [reflexivity|]. split; [reflexivity|].
  rewrite Hfs'. unfold file. rewrite Hfs'. split; [|split].
  - intros path Hne1 Hne2.
    destruct (Hgrown path) as [->|(pieces & Hne & _ & Hplace)].
    + rewrite Hfs. now rewrite lookup_insert_ne.
    + destruct pieces as [|[s|rows] pieces]; [congruence| |];
        apply Forall_cons in Hplace as [Hp _]; simpl in Hp; exfalso;
        first [exact (Hne1 Hp) | exact (Hne2 Hp)].
  - destruct (Hgrown out) as [->|(pieces & _ & -> & Hplace)].
    + exists []. rewrite Hfs, lookup_insert_eq. auto.
    + exists pieces. unfold file. rewrite Hfs, lookup_insert_eq. split; [reflexivity|].
      eapply Forall_impl; [exact Hplace|].
      intros [s|rows] Hp; simpl in Hp; [exfalso; exact (Hdiff Hp)|eauto].
  - destruct (Hgrown notfound) as [->|(lines & Hne & -> & Hplace)].
    + exists []. rewrite Hfs, lookup_insert_ne by exact Hdiff.
      rewrite app_nil_r. auto.
    + exists lines. unfold file. rewrite Hfs, lookup_insert_ne by exact Hdiff.
      split; [reflexivity|]. split; [|congruence].
      eapply Forall_impl; [exact Hplace|].
      intros [s|rows] Hp; simpl in Hp; [eauto|exfalso; exact (Hdiff (eq_sym Hp))].
Qed.

(** ** Runs that process nothing *)

(** X9. A stop request served before the loop is entered: no record is
    processed, whatever the input holds, malformed sites included; the run
    returns with the matched output holding the header only, nothing
    probed, and the two messages of the stop and of the completion. *)
Theorem stop_before_loop (E : Env) (sched : Schedule) (iso : string)
    (websites : list CsvRecord) (w : World) :
  stop_at_launch sched = true ->
  exists w',
    scrapeWebsites E sched iso websites w = (Ok tt, w') /\
    fs w' = <[path_join (downloadDir E) ("Emails_" +:+ dashes iso +:+ ".csv")
              := [Text header]]> (fs w) /\
    probes w' = probes w /\
    browser_ops w' = browser_ops w ++ [CloseBrowser] /\
    published w' = published w ++ ["Scraping stopped by user."; "Scraping complete."] /\
    isScraping w' = false.
Proof.
  intros Hstop. rewrite scrapeWebsites_launched.
  rewrite websites_loop_inactive by (unfold launched; now rewrite Hstop).
  eexists. split; [reflexivity|].
  unfold launched. rewrite Hstop. simpl. rewrite <- app_assoc. auto 10.
Qed.

Lemma stop_before_loop_witness :
  exists w',
    scrapeWebsites (demo_env []) (mkSchedule true (fun _ => false)) demo_iso
      [business "Biz" "1 Main St" "not a url"] idle = (Ok tt, w') /\
    fs w' = <[path_join (downloadDir (demo_env [])) ("Emails_" +:+ dashes demo_iso +:+ ".csv")
              := [Text header]]> (fs idle) /\
    probes w' = probes idle /\
    browser_ops w' = browser_ops idle ++ [CloseBrowser] /\
    published w' = published idle ++ ["Scraping stopped by user."; "Scraping complete."] /\
    isScraping w' = false.
Proof.
  apply (stop_before_loop (demo_env []) (mkSchedule true (fun _ => false)) demo_iso
           [business "Biz" "1 Main St" "not a url"] idle).
  reflexivity.
Defined.

Lemma websites_loop_blank E total rest :
  Forall (fun record => site_of record = None \/ site_of record = Some EmptyString) rest ->
  forall i w, websites_loop E never_stop total i rest w = (Ok tt, w).
Proof.
  induction 1 as [|record rest Hblank _ IH]; intros i w; [reflexivity|].
  destruct (isScraping w) eqn:Hactive.
  - rewrite websites_loop_step by exact Hactive.
    assert (Hrec : process_record E total i record w = (Ok tt, w)).
    { unfold process_record. destruct Hblank as [-> | ->]; reflexivity. }
    rewrite Hrec. apply IH.
  - now apply websites_loop_inactive.
Qed.

(** X10. An input without sites (no rows, or rows whose Website is
    missing or blank): the run returns, the matched output holds the
    header only, no other file is created or changed, nothing is probed,
    and the only message is the completion. *)
Theorem run_without_sites (E : Env) (iso : string) (websites : list CsvRecord) (w : World) :
  Forall (fun record => record !! "Website" = None \/
                        exists cell, record !! "Website" = Some cell /\
                                     Str.trim cell = EmptyString) websites ->
  exists w',
    scrapeWebsites E never_stop iso websites w = (Ok tt, w') /\
    fs w' = <[path_join (downloadDir E) ("Emails_" +:+ dashes iso +:+ ".csv")
              := [Text header]]> (fs w) /\
    probes w' = probes w /\
    published w' = published w ++ ["Scraping complete."] /\
    isScraping w' = false.
Proof.
  intros Hblank. rewrite scrapeWebsites_launched.
  rewrite websites_loop_blank.
  - eexists. split; [reflexivity|]. simpl. auto.
  - eapply Forall_impl; [exact Hblank|].
    intros record [Hnone|(cell & Hcell & Htrim)]; unfold site_of.
    + left. now rewrite Hnone.
    + right. rewrite Hcell. simpl. now rewrite Htrim.
Qed.

Lemma run_without_sites_witness :
  exists w',
    scrapeWebsites (demo_env []) never_stop demo_iso
      [business "Biz" "1 Main St" "  "; delete "Website" (business "B" "2" "x")] idle
    = (Ok tt, w') /\
    fs w' = <[path_join (downloadDir (demo_env [])) ("Emails_" +:+ dashes demo_iso +:+ ".csv")
              := [Text header]]> (fs idle) /\
    probes w' = probes idle /\
    published w' = published idle ++ ["Scraping complete."] /\
    isScraping w' = false.
Proof.
  apply (run_without_sites (demo_env []) demo_iso
           [business "Biz" "1 Main St" "  "; delete "Website" (business "B" "2" "x")] idle).
  constructor; [|constructor; [|constructor]].
  - right. exists "  ". split; vm_compute; reflexivity.
  - left. vm_compute. reflexivity.
Defined.

(** ** The progress lines of a run *)

Lemma classify_published record domain emails w :
  published (classify record domain emails w).2 = published w /\
  isScraping (classify record domain emails w).2 = isScraping w /\
  probes (classify record domain emails w).2 = probes w /\
  (classify record domain emails w).1 = Ok tt.
Proof.
  destruct (classify_cases record domain emails w)
    as [(_ & _ & ->)|[(_ & _ & ->)|(_ & ->)]]; simpl; auto.
Qed.

(** A well-formed record publishes its progress line if it has a site,
    nothing otherwise, and returns. *)
Lemma process_record_published E total i record w :
  well_formed E record ->
  exists w',
    process_record E total i record w = (Ok tt, w') /\
    isScraping w' = isScraping w /\
    published w' = published w ++ progress_lines total i [record].
Proof.
  intros Hwf.
  destruct (process_record_cases E total i record w)
    as [(Hblank & ->)|[(site & Hsite & Hne & Hbad & _)
       |(site & host & res & w2 & urls & ops & Hsite & Hne & Hhost & Hrun & Hprobed & _ & Hres)]].
  - exists w. simpl. destruct Hblank as [-> | ->]; rewrite app_nil_r; auto.
  - exfalso. unfold well_formed in Hwf. rewrite Hsite in Hwf.
    destruct site; [congruence|]. destruct Hwf as [[host Hhost] _]. congruence.
  - assert (Hpaths : Forall (fun path => is_Some (url_href E path site)) contactPaths).
    { unfold well_formed in Hwf. rewrite Hsite in Hwf.
      destruct site; [congruence|]. apply Hwf. }
    destruct (probe_site_returns E site (sendProgress (progress_line site i total) w).2 Hpaths)
      as (emails & w2' & Hok).
    rewrite Hrun in Hok. injection Hok as -> <-.
    destruct Hres as [_ Hres].
    apply probed_frame in Hprobed as (Hflag & _ & _ & _ & _ & Hpub).
    destruct (classify_published record (Str.replace "www." "" host) emails w2)
      as (Hp & Hf & _ & Hr).
    exists (classify record (Str.replace "www." "" host) emails w2).2.
    rewrite Hres, Hp, Hf, Hpub, Hflag. split; [|split; [reflexivity|]].
    + destruct (classify record _ emails w2) as [r w3]; simpl in *. now subst r.
    + simpl. rewrite Hsite. destruct site; [congruence|reflexivity].
Qed.

Lemma progress_lines_cons total i record rest :
  progress_lines total i (record :: rest)
  = progress_lines total i [record] ++ progress_lines total (S i) rest.
Proof. simpl. destruct (site_of record) as [[|c site]|]; reflexivity. Qed.

Lemma websites_loop_published E total rest :
  Forall (well_formed E) rest ->
  forall i w, isScraping w = true ->
    exists w',
      websites_loop E never_stop total i rest w = (Ok tt, w') /\
      isScraping w' = true /\
      published w' = published w ++ progress_lines total i rest.
Proof.
  induction 1 as [|record rest Hwf _ IH]; intros i w Hactive.
  - exists w. simpl. rewrite app_nil_r. auto.
  - rewrite websites_loop_step by exact Hactive.
    destruct (process_record_published E total i record w Hwf) as (w1 & -> & Hflag & Hpub).
    destruct (IH (S i) w1) as (w' & Hloop & Hflag' & Hpub'); [congruence|].
    exists w'. split; [exact Hloop|]. split; [exact Hflag'|].
    now rewrite Hpub', Hpub, (progress_lines_cons total i record rest), <- app_assoc.
Qed.

(** X11. A run nobody stops, over well-formed records, returns, and
    publishes one progress line per record with a site, in the order of
    the input and numbered by the position in the input (skipped rows
    count), then ["Scraping complete."]. *)
Theorem progress_of_full_run (E : Env) (iso : string) (websites : list CsvRecord)
    (w : World) :
  Forall (well_formed E) websites ->
  exists w',
    scrapeWebsites E never_stop iso websites w = (Ok tt, w') /\
    published w' = published w
                   ++ progress_lines (length websites) 0 websites
                   ++ ["Scraping complete."].
Proof.
  intros Hwf. rewrite scrapeWebsites_launched.
  destruct (websites_loop_published E (length websites) websites Hwf 0
              (launched E never_stop iso w) eq_refl) as (w1 & -> & _ & Hpub).
  eexists. split; [reflexivity|]. simpl. rewrite Hpub. simpl.
  now rewrite <- app_assoc.
Qed.

Ltac well_formed_demo :=
  unfold well_formed;
  match goal with
  | |- context [site_of ?r] =>
      let v := eval vm_compute in (site_of r) in
      replace (site_of r) with v by (vm_compute; reflexivity)
  end;
  first [ exact I
        | split; [vm_compute; eexists; reflexivity
                 |repeat constructor; vm_compute; eexists; reflexivity] ].

Lemma progress_of_full_run_witness :
  let E := demo_env [("https://a.example", page_with ["mailto:info@a.example"])] in
  let websites := [ business "First" "1 Main St" "https://a.example";
                    business "Second" "2 Main St" "";
                    business "Third" "3 Main St" "https://b.example" ] in
  exists w',
    scrapeWebsites E never_stop demo_iso websites idle = (Ok tt, w') /\
    published w' = published idle
                   ++ progress_lines (length websites) 0 websites
                   ++ ["Scraping complete."].
Proof.
  intros E websites.
  apply (progress_of_full_run E demo_iso websites idle).
  constructor; [|constructor; [|constructor; [|constructor]]]; well_formed_demo.
Defined.

Example progress_lines_skip_blank :
  progress_lines 3 0 [ business "First" "1 Main St" "https://a.example";
                       business "Second" "2 Main St" "";
                       business "Third" "3 Main St" "https://b.example" ]
  = ["Scraping: https://a.example (1/3)"; "Scraping: https://b.example (3/3)"].
Proof. vm_compute. reflexivity. Qed.

(** ** The two outputs of a record *)

(** X12. A record with a site whose probes all come back empty gets one
    line in the unmatched output and nothing else changes in the files:
    the line is the host name without its leading ["www."] when it has
    one, and the host name itself when ["www."] occurs nowhere in it. *)
Theorem unmatched_domain_line (E : Env) (total i : nat) (record : CsvRecord)
    (site host : string) (w w2 : World) :
  site_of record = Some site -> site <> EmptyString ->
  url_hostname E site = Some host ->
  probe_site E site (sendProgress (progress_line site i total) w).2 = (Ok [], w2) ->
  exists w' domain,
    process_record E total i record w = (Ok tt, w') /\
    file w' (lastNotFoundFile w) = file w (lastNotFoundFile w) ++ [Text (line domain)] /\
    (forall other, other <> lastNotFoundFile w -> file w' other = file w other) /\
    (String.prefix "www." host = true -> domain = Str.drop 4 host) /\
    (Str.occurs "www." host = false -> domain = host).
Proof.
  intros Hsite Hne Hhost Hprobe.
  destruct (unmatched_line E total i record site host w w2 Hsite Hne Hhost Hprobe)
    as (w' & Hrun & Hfile & Hother).
  exists w', (Str.replace "www." "" host).
  repeat (split; [assumption|]). split.
  - intros Hprefix. now rewrite replace_prefix.
  - apply replace_absent.
Qed.

Lemma unmatched_domain_line_witness :
  let E := demo_env [] in
  let record := business "Biz" "1 Main St" "https://www.b.example" in
  let w := set_lastNotFoundFile demo_notfound
             (set_lastOutputFile demo_emails (set_isScraping true idle)) in
  exists w' domain,
    process_record E 1 0 record w = (Ok tt, w') /\
    file w' (lastNotFoundFile w) = file w (lastNotFoundFile w) ++ [Text (line domain)] /\
    (forall other, other <> lastNotFoundFile w -> file w' other = file w other) /\
    (String.prefix "www." "www.b.example" = true -> domain = Str.drop 4 "www.b.example") /\
    (Str.occurs "www." "www.b.example" = false -> domain = "www.b.example").
Proof.
  intros E record w.
  refine (unmatched_domain_line E 1 0 record "https://www.b.example" "www.b.example" w
            (probe_site E "https://www.b.example"
               (sendProgress (progress_line "https://www.b.example" 0 1) w).2).2 _ _ _ _).
  - vm_compute. reflexivity.
  - discriminate.
  - vm_compute. reflexivity.
  - vm_compute. reflexivity.
Defined.

(** X13. With the two outputs under different names, a record changes at
    most one file, by one piece: it adds nothing, or one piece of at least
    one row to the matched output, or one line to the unmatched output;
    never both, whether it returns or throws. *)
Theorem record_lands_in_one_output (E : Env) (total i : nat) (record : CsvRecord)
    (w : World) :
  lastOutputFile w <> lastNotFoundFile w ->
  let w' := (process_record E total i record w).2 in
  fs w' = fs w \/
  (exists rows, rows <> [] /\
     fs w' = <[lastOutputFile w := file w (lastOutputFile w) ++ [Csv rows]]> (fs w) /\
     fs w' !! lastNotFoundFile w = fs w !! lastNotFoundFile w) \/
  (exists domain,
     fs w' = <[lastNotFoundFile w := file w (lastNotFoundFile w) ++ [Text (line domain)]]> (fs w) /\
     fs w' !! lastOutputFile w = fs w !! lastOutputFile w).
Proof.
  intros Hdiff w'. subst w'.
  destruct (process_record_cases E total i record w)
    as [(_ & ->)|[(site & _ & _ & _ & ->)
       |(site & host & res & w2 & urls & ops & _ & _ & _ & _ & Hprobed & _ & Hres)]];
    [left; reflexivity|left; reflexivity|].
  apply probed_frame in Hprobed as (_ & Hout & Hnf & Hfs & _).
  simpl in Hout, Hnf, Hfs.
  destruct res as [emails|e]; [|rewrite Hres; left; exact Hfs].
  destruct Hres as [_ ->].
  destruct (classify_cases record (Str.replace "www." "" host) emails w2)
    as [(_ & _ & ->)|[(_ & Hclean & ->)|(_ & ->)]]; simpl.
  - left. exact Hfs.
  - right. left. exists (csvRow record <$> cleanedEmails emails).
    unfold file. rewrite Hout, Hfs. split; [|split; [reflexivity|]].
    + destruct (cleanedEmails emails); [congruence|discriminate].
    + now rewrite lookup_insert_ne.
  - right. right. exists (Str.replace "www." "" host).
    unfold file. rewrite Hnf, Hfs. split; [reflexivity|].
    rewrite lookup_insert_ne; [reflexivity|congruence].
Qed.

Lemma record_lands_in_one_output_witness :
  let E := demo_env [("https://a.example", page_with ["mailto:info@a.example"])] in
  let record := business "Biz" "1 Main St" "https://a.example" in
  let w := set_lastNotFoundFile demo_notfound
             (set_lastOutputFile demo_emails (set_isScraping true idle)) in
  let w' := (process_record E 1 0 record w).2 in
  fs w' = fs w \/
  (exists rows, rows <> [] /\
     fs w' = <[lastOutputFile w := file w (lastOutputFile w) ++ [Csv rows]]> (fs w) /\
     fs w' !! lastNotFoundFile w = fs w !! lastNotFoundFile w) \/
  (exists domain,
     fs w' = <[lastNotFoundFile w := file w (lastNotFoundFile w) ++ [Text (line domain)]]> (fs w) /\
     fs w' !! lastOutputFile w = fs w !! lastOutputFile w).
Proof.
  intros E record w.
  apply (record_lands_in_one_output E 1 0 record w).
  discriminate.
Defined.

(** ** A site the contact paths do not resolve against *)

(** X14. A record whose site parses but is no base for the contact paths
    (as a [mailto:] URL), and whose own page yields nothing: the record is
    announced and its site probed, then [new URL(path, site)] throws for
    the first contact path and the exception leaves the record, with no
    file changed and no further probe. *)
Theorem unresolved_contact_path_throws (E : Env) (total i : nat) (record : CsvRecord)
    (site host : string) (w : World) :
  site_of record = Some site -> site <> EmptyString ->
  url_hostname E site = Some host ->
  probe_result (web E (length (probes w)) site) = [] ->
  url_href E "/contact" site = None ->
  exists w',
    process_record E total i record w = (Throw (InvalidURL site), w') /\
    fs w' = fs w /\
    probes w' = probes w ++ [site] /\
    published w' = published w ++ [progress_line site i total] /\
    isScraping w' = isScraping w.
Proof.
  intros Hsite Hne Hhost Hempty Hbase.
  rewrite (process_record_run E total i record site host w Hsite Hne Hhost).
  unfold probe_site. rewrite run_bind.
  destruct (scrapeEmails_run E site (sendProgress (progress_line site i total) w).2)
    as (w1 & Hmain & Hprobed).
  change (probes (sendProgress (progress_line site i total) w).2) with (probes w) in Hmain.
  rewrite Hempty in Hmain. rewrite Hmain. cbn beta iota.
  cbn [length Nat.ltb Nat.leb].
  unfold scrapeContactPages, contactPaths. cbn [scrapeContactPaths].
  rewrite run_bind. unfold new_URL_href. rewrite Hbase.
  exists w1. split; [reflexivity|].
  rewrite (probed_probes _ _ _ _ Hprobed).
  apply probed_frame in Hprobed as (-> & _ & _ & -> & _ & ->). auto.
Qed.

Lemma unresolved_contact_path_throws_witness :
  let E := mkEnv (fun _ _ => dead_page)
                 (fun s => if String.prefix "mailto:" s then Some EmptyString else None)
                 (fun _ _ => None) "downloads" in
  let record := business "Biz" "1 Main St" "mailto:info@a.example" in
  let w := set_isScraping true idle in
  exists w',
    process_record E 1 0 record w = (Throw (InvalidURL "mailto:info@a.example"), w') /\
    fs w' = fs w /\
    probes w' = probes w ++ ["mailto:info@a.example"] /\
    published w' = published w ++ [progress_line "mailto:info@a.example" 0 1] /\
    isScraping w' = isScraping w.
Proof.
  intros E record w.
  apply (unresolved_contact_path_throws E 1 0 record "mailto:info@a.example" EmptyString w).
  - vm_compute. reflexivity.
  - discriminate.
  - reflexivity.
  - reflexivity.
  - reflexivity.
Defined.

(** ** The upload handler *)

Lemma includes_append c (a b : string) :
  Str.includes c (a +:+ b) = Str.includes c a || Str.includes c b.
Proof.
  induction a as [|d a IH]; [reflexivity|].
  rewrite append_cons. simpl. now rewrite IH, orb_assoc.
Qed.

Lemma includes_dashes iso : Str.includes "/" iso = false -> Str.includes "/" (dashes iso) = false.
Proof.
  induction iso as [|d iso IH]; simpl; [auto|].
  intros [Hd Hrest]%orb_false_iff. rewrite (IH Hrest), orb_false_r.
  destruct (Ascii.eqb d ":" || Ascii.eqb d "."); [reflexivity|exact Hd].
Qed.

Lemma after_last_slash_none p : Str.includes "/" p = false -> after_last_slash p = p.
Proof. destruct p as [|c p]; simpl; [reflexivity|]. now intros ->. Qed.

Lemma after_last_slash_join dir name :
  Str.includes "/" name = false -> after_last_slash (dir +:+ "/" +:+ name) = name.
Proof.
  intros Hname. induction dir as [|c dir IH].
  - rewrite append_empty_l, append_cons, append_empty_l. simpl.
    now apply after_last_slash_none.
  - rewrite append_cons. cbn [after_last_slash].
    rewrite includes_append, append_cons. simpl. now rewrite !orb_true_r.
Qed.

Lemma last_char_append (a b : string) :
  b <> EmptyString -> Str.last_char (a +:+ b) = Str.last_char b.
Proof.
  intros Hb. induction a as [|c a IH]; [reflexivity|].
  rewrite append_cons. cbn [Str.last_char]. rewrite IH.
  destruct b as [|d b]; [congruence|]. simpl. now destruct (Str.last_char b).
Qed.

Lemma last_char_includes s c : Str.last_char s = Some c -> Str.includes c s = true.
Proof.
  induction s as [|d s IH]; [discriminate|]. simpl.
  destruct (Str.last_char s) as [e|].
  - intros [= ->]. rewrite IH by reflexivity. apply orb_true_r.
  - intros [= ->]. now rewrite Ascii.eqb_refl.
Qed.

Lemma without_trailing_slashes_id p :
  (forall c, Str.last_char p = Some c -> c <> "/"%char) -> without_trailing_slashes p = p.
Proof.
  induction p as [|c p IH]; [reflexivity|].
  cbn [without_trailing_slashes Str.last_char]. intros H.
  destruct p as [|d p].
  - simpl in *. specialize (H c eq_refl). apply Ascii.eqb_neq in H. now rewrite H.
  - rewrite IH; [reflexivity|].
    intros e He. apply H. now rewrite He.
Qed.

(** The base name of a file put in a directory is the name of the file. *)
Lemma basename_join dir name :
  name <> EmptyString -> Str.includes "/" name = false ->
  basename (path_join dir name) = name.
Proof.
  intros Hne Hname. unfold basename, path_join.
  rewrite without_trailing_slashes_id; [now apply after_last_slash_join|].
  intros c Hc Heq. subst c.
  rewrite last_char_append in Hc by (rewrite append_cons; discriminate).
  rewrite append_cons, append_empty_l in Hc. simpl in Hc.
  destruct (Str.last_char name) as [d|] eqn:Hlast.
  - injection Hc as ->. apply last_char_includes in Hlast. congruence.
  - destruct name; [congruence|]. simpl in Hlast. now destruct (Str.last_char name).
Qed.

Lemma scrapeWebsites_returns_always E sched iso websites w :
  Forall (well_formed E) websites ->
  exists w_loop,
    scrapeWebsites E sched iso websites w = (Ok tt, loop_exit w_loop) /\
    effect (11 * length websites) (launched E sched iso w) w_loop.
Proof.
  intros Hwf.
  destruct (run_summary E sched iso websites w)
    as (w_loop & Heffect & [Hrun|(e & Hrun & _)]); [eauto|].
  rewrite scrapeWebsites_launched in Hrun.
  destruct (websites_loop_returns E sched (length websites) websites Hwf 0
              (launched E sched iso w)) as [w1 Hloop].
  rewrite Hloop in Hrun. discriminate.
Qed.

(** X15. [POST /upload]. Without a file the answer is 400 and nothing
    changes. With a file of well-formed records (and a time without [/]),
    the handler publishes ["Starting scraping process..."] before any
    message of the run, runs to ["Scraping complete."], and answers 200
    with the download URL of the matched output of this run; afterwards
    [GET /latest-file] names the same file and [GET /scraping-status]
    reports no run in progress. *)
Theorem upload_answers_with_matched_output (E : Env) (sched : Schedule) (iso : string)
    (websites : list CsvRecord) (w : World) :
  Forall (well_formed E) websites ->
  Str.includes "/" iso = false ->
  let name := "Emails_" +:+ dashes iso +:+ ".csv" in
  post_upload E sched iso None w
  = (Ok (mkResponse 400 [("error", JString "No file uploaded")]), w) /\
  exists w' msgs,
    post_upload E sched iso (Some websites) w
    = (Ok (mkResponse 200 [ ("success", JBool true);
                            ("downloadUrl", JString ("/download/" +:+ name)) ]), w') /\
    lastOutputFile w' = path_join (downloadDir E) name /\
    published w' = published w ++ "Starting scraping process..." :: msgs /\
    last msgs = Some "Scraping complete." /\
    get_latest_file w'
    = (Ok (mkResponse 200 [("success", JBool true); ("filename", JString name)]), w') /\
    get_scraping_status w'
    = (Ok (mkResponse 200 [("isScraping", JBool false)]), w').
Proof.
  intros Hwf Hiso name. split; [reflexivity|].
  assert (Hbase : basename (path_join (downloadDir E) name) = name).
  { apply basename_join; [subst name; rewrite append_cons; discriminate|].
    subst name. rewrite !includes_append, (includes_dashes iso Hiso). reflexivity. }
  set (w0 := (sendProgress "Starting scraping process..." w).2).
  destruct (scrapeWebsites_returns_always E sched iso websites w0 Hwf)
    as (w_loop & Hrun & (m1 & Hp1 & _) & _ & (Hout & _ & _)).
  destruct (launched_progress E sched iso w0) as (m0 & Hp0 & _).
  destruct (launched_files E sched iso w0) as (Hout0 & _ & _).
  fold name in Hout0.
  exists (loop_exit w_loop), (m0 ++ m1 ++ ["Scraping complete."]).
  assert (Hname : lastOutputFile (loop_exit w_loop) = path_join (downloadDir E) name).
  { simpl. congruence. }
  split; [|split; [exact Hname|split; [|split; [|split]]]].
  - unfold post_upload. rewrite run_bind.
    change (sendProgress "Starting scraping process..." w) with (Ok tt, w0).
    cbn beta iota. rewrite run_bind, Hrun. run. now rewrite Hname, Hbase.
  - simpl. rewrite Hp1, Hp0. subst w0. simpl. now rewrite <- !app_assoc.
  - rewrite !app_assoc. apply last_snoc.
  - unfold get_latest_file. run. now rewrite Hname, Hbase.
  - reflexivity.
Qed.

Lemma upload_answers_with_matched_output_witness :
  let E := demo_env [("https://a.example", page_with ["mailto:info@a.example"])] in
  let websites := [ business "First" "1 Main St" "https://a.example";
                    business "Second" "2 Main St" "https://b.example" ] in
  let name := "Emails_" +:+ dashes demo_iso +:+ ".csv" in
  post_upload E never_stop demo_iso None idle
  = (Ok (mkResponse 400 [("error", JString "No file uploaded")]), idle) /\
  exists w' msgs,
    post_upload E never_stop demo_iso (Some websites) idle
    = (Ok (mkResponse 200 [ ("success", JBool true);
                            ("downloadUrl", JString ("/download/" +:+ name)) ]), w') /\
    lastOutputFile w' = path_join (downloadDir E) name /\
    published w' = published idle ++ "Starting scraping process..." :: msgs /\
    last msgs = Some "Scraping complete." /\
    get_latest_file w'
    = (Ok (mkResponse 200 [("success", JBool true); ("filename", JString name)]), w') /\
    get_scraping_status w'
    = (Ok (mkResponse 200 [("isScraping", JBool false)]), w').
Proof.
  intros E websites.
  apply (upload_answers_with_matched_output E never_stop demo_iso websites idle).
  - constructor; [|constructor; [|constructor]]; well_formed_demo.
  - reflexivity.
Defined.

Example upload_download_url :
  let E := demo_env [("https://a.example", page_with ["mailto:info@a.example"])] in
  (post_upload E never_stop demo_iso
     (Some [business "First" "1 Main St" "https://a.example"]) idle).1
  = Ok (mkResponse 200 [ ("success", JBool true);
                         ("downloadUrl",
                          JString "/download/Emails_2024-01-02T03-04-05-678Z.csv") ]).
Proof. vm_compute. reflexivity. Qed.

(** ** The matched output, traced to the probes *)

Lemma row_traced_grown E n0 w w' row :
  (exists urls, probes w' = probes w ++ urls) ->
  row_traced E n0 w row -> row_traced E n0 w' row.
Proof.
  intros [urls Hurls] (j & url & extracted & address & Hj & Hlook & Hrest).
  exists j, url, extracted, address. split; [exact Hj|]. split; [|exact Hrest].
  rewrite Hurls. now apply lookup_app_l_Some.
Qed.

Lemma output_traced_grown E n0 w w' :
  (exists urls, probes w' = probes w ++ urls) ->
  rows_of (file w' (lastOutputFile w')) = rows_of (file w (lastOutputFile w)) ->
  output_traced E n0 w -> output_traced E n0 w'.
Proof.
  intros Hurls Hrows [Hn Hall]. split.
  - destruct Hurls as [urls ->]. rewrite length_app. lia.
  - rewrite Hrows. eapply Forall_impl; [exact Hall|].
    intros row. now apply row_traced_grown.
Qed.

(** The addresses the fallback returns, when it returns some, are the
    result of one probe of the log. *)
Lemma scrapeContactPaths_traced E mainUrl paths :
  forall w emails w',
    scrapeContactPaths E paths mainUrl w = (Ok emails, w') -> emails <> [] ->
    exists j url,
      length (probes w) <= j /\ probes w' !! j = Some url /\
      emails = probe_result (web E j url).
Proof.
  induction paths as [|path paths IH]; intros w emails w'; simpl.
  - intros [= <- _] H. congruence.
  - unfold new_URL_href. destruct (url_href E path mainUrl) as [href|]; run; [|discriminate].
    destruct (scrapeEmails_run E href w) as (w1 & Hrun & Hprobed).
    rewrite Hrun. cbn beta iota.
    destruct (probe_result (web E (length (probes w)) href)) as [|x r] eqn:Hr; simpl.
    + intros Hrest Hne.
      destruct (IH w1 emails w' Hrest Hne) as (j & url & Hj & Hlook & Heq).
      exists j, url. split; [|auto].
      rewrite (probed_probes _ _ _ _ Hprobed), length_app in Hj. lia.
    + intros [= <- <-] _. exists (length (probes w)), href.
      split; [lia|]. split; [|now rewrite Hr].
      rewrite (probed_probes _ _ _ _ Hprobed).
      rewrite lookup_app_r by lia. now rewrite Nat.sub_diag.
Qed.

Lemma probe_site_traced E site w emails w' :
  probe_site E site w = (Ok emails, w') -> emails <> [] ->
  exists j url,
    length (probes w) <= j /\ probes w' !! j = Some url /\
    emails = probe_result (web E j url).
Proof.
  unfold probe_site. run.
  destruct (scrapeEmails_run E site w) as (w1 & Hrun & Hprobed).
  rewrite Hrun. cbn beta iota.
  destruct (probe_result (web E (length (probes w)) site)) as [|x r] eqn:Hr; simpl.
  - intros Hrest Hne.
    destruct (scrapeContactPaths_traced E site contactPaths w1 emails w' Hrest Hne)
      as (j & url & Hj & Hlook & Heq).
    exists j, url. split; [|auto].
    rewrite (probed_probes _ _ _ _ Hprobed), length_app in Hj. lia.
  - intros [= <- <-] _. exists (length (probes w)), site.
    split; [lia|]. split; [|now rewrite Hr].
    rewrite (probed_probes _ _ _ _ Hprobed).
    rewrite lookup_app_r by lia. now rewrite Nat.sub_diag.
Qed.

Lemma classify_traced E n0 record domain emails w :
  (emails <> [] ->
   exists j url, n0 <= j /\ probes w !! j = Some url /\
                 emails = probe_result (web E j url)) ->
  output_traced E n0 w -> output_traced E n0 (classify record domain emails w).2.
Proof.
  intros Hsource [Hn Hall].
  destruct (classify_cases record domain emails w)
    as [(_ & _ & ->)|[(Hne & _ & ->)|(_ & ->)]]; simpl.
  - split; assumption.
  - split; [exact Hn|].
    apply (Forall_impl (row_traced E n0 w)); [|intros row H; exact H].
    cbn [lastOutputFile set_fs]. rewrite file_appended, rows_of_app. simpl.
    rewrite app_nil_r. apply Forall_app. split; [exact Hall|].
    destruct (Hsource Hne) as (j & url & Hj & Hlook & Heq).
    apply Forall_forall. intros row (address & -> & Haddr)%list_elem_of_fmap.
    apply cleanedEmails_elem in Haddr as (Hat & extracted & Hin & ->).
    exists j, url, extracted, (cleanEmail extracted).
    rewrite <- Heq. auto 10 using cleanEmail_spec.
  - split; [exact Hn|].
    apply (Forall_impl (row_traced E n0 w)); [|intros row H; exact H].
    cbn [lastOutputFile set_fs].
    destruct (decide (lastOutputFile w = lastNotFoundFile w)) as [Heq|Hne].
    + rewrite Heq, file_appended, rows_of_app. simpl. rewrite app_nil_r.
      now rewrite <- Heq.
    + now rewrite file_appended_other.
Qed.

Lemma process_record_traced E n0 total i record w :
  output_traced E n0 w -> output_traced E n0 (process_record E total i record w).2.
Proof.
  intros Hw.
  destruct (process_record_cases E total i record w)
    as [(_ & ->)|[(site & _ & _ & _ & ->)
       |(site & host & res & w2 & urls & ops & _ & _ & _ & Hrun & Hprobed & _ & Hres)]];
    [exact Hw|exact Hw|].
  assert (Hw2 : output_traced E n0 w2).
  { apply (output_traced_grown E n0 w); [| |exact Hw].
    - exists (site :: urls). now rewrite (probed_probes _ _ _ _ Hprobed).
    - apply probed_frame in Hprobed as (_ & Hout & _ & Hfs & _).
      unfold file. now rewrite Hout, Hfs. }
  destruct res as [emails|e]; [|now rewrite Hres].
  destruct Hres as [_ ->]. apply classify_traced; [|exact Hw2].
  intros Hne.
  destruct (probe_site_traced E site _ emails w2 Hrun Hne) as (j & url & Hj & Hlook & Heq).
  exists j, url. split; [|auto]. destruct Hw as [Hn _]. simpl in Hj. lia.
Qed.

Lemma websites_loop_traced E n0 sched total rest :
  forall i w, output_traced E n0 w ->
              output_traced E n0 (websites_loop E sched total i rest w).2.
Proof.
  induction rest as [|record rest IH]; intros i w Hw; [exact Hw|].
  destruct (isScraping w) eqn:Hactive.
  - rewrite websites_loop_step by exact Hactive.
    pose proof (process_record_traced E n0 total i record w Hw) as Hrec.
    destruct (process_record E total i record w) as [[[]|e] w1]; simpl in Hrec; [|exact Hrec].
    apply IH. destruct (stop_after sched i); exact Hrec.
  - now rewrite websites_loop_inactive.
Qed.

(** X16. Whatever the pages and the stop requests, and whether the run
    returns or throws, every row of the matched output of a run is traced
    to a probe of this run: its address is the part before the first [?],
    trimmed and holding an [@], of an address that one of the run's probes
    extracted from its page. *)
Theorem matched_output_traced (E : Env) (sched : Schedule) (iso : string)
    (websites : list CsvRecord) (w : World) :
  let w' := (scrapeWebsites E sched iso websites w).2 in
  Forall (row_traced E (length (probes w)) w') (rows_of (file w' (lastOutputFile w'))).
Proof.
  intros w'. subst w'.
  assert (Hentry : output_traced E (length (probes w)) (launched E sched iso w)).
  { unfold output_traced, launched, file.
    destruct (stop_at_launch sched); simpl; rewrite lookup_insert_eq;
      (split; [lia|constructor]). }
  pose proof (websites_loop_traced E (length (probes w)) sched (length websites) websites 0
                (launched E sched iso w) Hentry) as [_ Hloop].
  rewrite scrapeWebsites_launched.
  destruct (websites_loop E sched (length websites) 0 websites (launched E sched iso w))
    as [[[]|e] w1]; simpl in *; exact Hloop.
Qed.

(** ** The outputs of a run against the specification's words *)

Lemma csvRow_keeps_metadata record address : keeps_metadata record (csvRow record address).
Proof.
  unfold keeps_metadata. repeat split; try reflexivity.
  - intros a Ha Hnonempty. simpl. rewrite Ha. destruct a; [congruence|reflexivity].
  - intros [Ha|Ha]; simpl; now rewrite Ha.
Qed.

Lemma csvRow_reflects record (addresses : list string) :
  Forall2 (fun row address =>
             keeps_metadata record row /\ field "Email" row = Some address)
          (csvRow record <$> addresses) addresses.
Proof.
  induction addresses; constructor; auto using csvRow_keeps_metadata.
Qed.

Lemma replace_normalized host : normalized host (Str.replace "www." "" host).
Proof.
  split.
  - intros Hprefix. now rewrite replace_prefix.
  - apply replace_absent.
Qed.

(** The probing of a site whose contact paths resolve is the probing the
    specification describes. *)
Lemma probe_site_spec E site w :
  Forall (fun path => is_Some (url_href E path site)) contactPaths ->
  exists urls emails w2 ops,
    probe_site E site w = (Ok emails, w2) /\
    probed w w2 urls ops /\
    site_probing E (length (probes w)) site urls emails.
Proof.
  intros Hpaths. unfold probe_site, site_probing. rewrite run_bind.
  destruct (scrapeEmails_run E site w) as (w1 & Hrun & Hprobed).
  rewrite Hrun. cbn beta iota.
  destruct (probe_result (web E (length (probes w)) site)) as [|x r] eqn:Hr.
  - cbn [length Nat.ltb Nat.leb].
    destruct (resolved_paths _ _ _ Hpaths) as [hrefs Hhrefs].
    destruct (scrapeContactPaths_run E site contactPaths hrefs Hhrefs w1)
      as (w2 & ops & Hrest & Hprobed').
    rewrite (probed_probes _ _ _ _ Hprobed), length_app, Nat.add_1_r in Hrest, Hprobed'.
    eexists _, _, w2, _. split; [exact Hrest|]. split.
    + exact (probed_trans _ _ _ [site] _ _ _ Hprobed Hprobed').
    + right. split; [reflexivity|]. exists hrefs. auto.
  - cbn [length Nat.ltb Nat.leb]. rewrite run_ret.
    eexists _, _, w1, _. split; [reflexivity|]. split; [exact Hprobed|].
    left. split; [discriminate|auto].
Qed.

Lemma well_formed_site E record :
  well_formed E record ->
  (record !! "Website" = None \/
   exists cell, record !! "Website" = Some cell /\ Str.trim cell = EmptyString) \/
  (exists cell host,
     record !! "Website" = Some cell /\ Str.trim cell <> EmptyString /\
     site_of record = Some (Str.trim cell) /\
     url_hostname E (Str.trim cell) = Some host /\
     Forall (fun path => is_Some (url_href E path (Str.trim cell))) contactPaths).
Proof.
  unfold well_formed, site_of.
  destruct (record !! "Website") as [cell|]; simpl; [|auto].
  destruct (Str.trim cell) as [|c site] eqn:Htrim.
  - intros _. left. right. exists cell. auto.
  - intros [[host Hhost] Hpaths]. right. exists cell, host.
    rewrite Htrim. repeat split; auto; discriminate.
Qed.

(** One well-formed record, against the specification's words. *)
Lemma process_record_reflected E total i record w :
  well_formed E record ->
  lastOutputFile w <> lastNotFoundFile w ->
  exists w' urls new domains,
    process_record E total i record w = (Ok tt, w') /\
    (forall rest urls' rows ds,
       reflected E (length (probes w) + length urls) rest urls' rows ds ->
       reflected E (length (probes w)) (record :: rest)
                 (urls ++ urls') (new ++ rows) (domains ++ ds)) /\
    probes w' = probes w ++ urls /\
    isScraping w' = isScraping w /\
    lastOutputFile w' = lastOutputFile w /\
    lastNotFoundFile w' = lastNotFoundFile w /\
    rows_of (file w' (lastOutputFile w)) = rows_of (file w (lastOutputFile w)) ++ new /\
    texts_of (file w' (lastOutputFile w)) = texts_of (file w (lastOutputFile w)) /\
    file w' (lastNotFoundFile w)
    = file w (lastNotFoundFile w) ++ ((fun domain => Text (line domain)) <$> domains).
Proof.
  intros Hwf Hdiff.
  destruct (well_formed_site E record Hwf)
    as [Hblank|(cell & host & Hcell & Hne & Hsite & Hhost & Hpaths)].
  - exists w, [], [], []. rewrite !app_nil_r. repeat split; auto.
    + unfold process_record, site_of.
      destruct Hblank as [->|(cell & -> & Htrim)]; simpl; [reflexivity|now rewrite Htrim].
    + intros rest urls' rows ds Hrest. rewrite Nat.add_0_r in Hrest.
      now apply reflected_skipped.
  - rewrite (process_record_run E total i record (Str.trim cell) host w Hsite Hne Hhost).
    destruct (probe_site_spec E (Str.trim cell)
                (sendProgress (progress_line (Str.trim cell) i total) w).2 Hpaths)
      as (urls & emails & w2 & ops & Hrun & Hprobed & Hspec).
    rewrite Hrun.
    change (probes (sendProgress (progress_line (Str.trim cell) i total) w).2)
      with (probes w) in Hspec.
    pose proof (probed_probes _ _ _ _ Hprobed) as Hprobes. simpl in Hprobes.
    apply probed_frame in Hprobed as (Hflag & Hout & Hnf & Hfs & _).
    simpl in Hflag, Hout, Hnf, Hfs.
    assert (Hfile : forall path, file w2 path = file w path).
    { intros path. now apply file_same_fs. }
    destruct (classify_cases record (Str.replace "www." "" host) emails w2)
      as [(Hsome & Hclean & ->)|[(Hsome & Hclean & ->)|(-> & ->)]].
    + exists w2, urls, [], []. rewrite !app_nil_r, !Hfile.
      split; [reflexivity|]. split; [|auto 10].
      intros rest urls' rows ds Hrest.
      apply (reflected_matched E _ record rest cell urls emails [] []); auto;
        try (rewrite <- Hclean; apply cleanedEmails_survivors); try constructor.
    + eexists _, urls, (csvRow record <$> cleanedEmails emails), [].
      split; [reflexivity|]. rewrite app_nil_r.
      cbn [probes isScraping lastOutputFile lastNotFoundFile set_fs].
      rewrite Hout.
      split; [|split; [auto|split; [auto|split; [auto|split; [auto|split; [|split]]]]]].
      * intros rest urls' rows ds Hrest.
        apply (reflected_matched E _ record rest cell urls emails (cleanedEmails emails));
          auto using cleanedEmails_survivors, csvRow_reflects.
      * rewrite file_appended, rows_of_app, Hfile. simpl. now rewrite app_nil_r.
      * rewrite file_appended, texts_of_app, Hfile. simpl. now rewrite app_nil_r.
      * rewrite file_appended_other by congruence. apply Hfile.
    + eexists _, urls, [], [Str.replace "www." "" host].
      split; [reflexivity|].
      cbn [probes isScraping lastOutputFile lastNotFoundFile set_fs].
      rewrite Hnf.
      split; [|split; [auto|split; [auto|split; [auto|split; [auto|split; [|split]]]]]].
      * intros rest urls' rows ds Hrest.
        apply (reflected_unmatched E _ record rest cell host); auto using replace_normalized.
      * rewrite file_appended_other by congruence. rewrite app_nil_r. now rewrite Hfile.
      * rewrite file_appended_other by congruence. now rewrite Hfile.
      * rewrite file_appended, Hfile. reflexivity.
Qed.

Lemma websites_loop_reflected E total rest :
  Forall (well_formed E) rest ->
  forall i w,
    isScraping w = true -> lastOutputFile w <> lastNotFoundFile w ->
    exists w' urls rows domains,
      websites_loop E never_stop total i rest w = (Ok tt, w') /\
      reflected E (length (probes w)) rest urls rows domains /\
      probes w' = probes w ++ urls /\
      lastOutputFile w' = lastOutputFile w /\
      lastNotFoundFile w' = lastNotFoundFile w /\
      rows_of (file w' (lastOutputFile w)) = rows_of (file w (lastOutputFile w)) ++ rows /\
      texts_of (file w' (lastOutputFile w)) = texts_of (file w (lastOutputFile w)) /\
      file w' (lastNotFoundFile w)
      = file w (lastNotFoundFile w) ++ ((fun domain => Text (line domain)) <$> domains).
Proof.
  induction 1 as [|record rest Hwf _ IH]; intros i w Hactive Hdiff.
  - exists w, [], [], []. rewrite !app_nil_r. repeat split; auto. constructor.
  - rewrite websites_loop_step by exact Hactive.
    destruct (process_record_reflected E total i record w Hwf Hdiff)
      as (w1 & urls1 & new1 & ds1 & -> & Hrec & Hp1 & Hf1 & Ho1 & Hn1 & Hr1 & Ht1 & Hl1).
    simpl serve_stop. cbn beta iota.
    destruct (IH (S i) w1) as (w' & urls & rows & ds & Hloop & Hrefl & Hp & Ho & Hn & Hr & Ht & Hl);
      [congruence|congruence|].
    rewrite Ho1, Hn1 in *.
    exists w', (urls1 ++ urls), (new1 ++ rows), (ds1 ++ ds).
    split; [exact Hloop|]. split.
    { apply Hrec. rewrite Hp1, length_app in Hrefl. exact Hrefl. }
    rewrite Hp, Hp1, Hr, Hr1, Ht, Ht1, Hl, Hl1, fmap_app, <- !app_assoc.
    auto 10.
Qed.

(** A run nobody stops, over well-formed records, against the
    specification's words. *)
Lemma run_reflected E iso websites w :
  Forall (well_formed E) websites ->
  let out := path_join (downloadDir E) ("Emails_" +:+ dashes iso +:+ ".csv") in
  let notfound := path_join (downloadDir E) ("Notfound_" +:+ dashes iso +:+ ".txt") in
  exists w' urls rows domains,
    scrapeWebsites E never_stop iso websites w = (Ok tt, w') /\
    reflected E (length (probes w)) websites urls rows domains /\
    probes w' = probes w ++ urls /\
    lastOutputFile w' = out /\ lastNotFoundFile w' = notfound /\
    rows_of (file w' out) = rows /\
    texts_of (file w' out) = [header] /\
    file w' notfound = file w notfound ++ ((fun domain => Text (line domain)) <$> domains).
Proof.
  intros Hwf out notfound.
  assert (Hdiff : out <> notfound) by apply output_names_differ.
  rewrite scrapeWebsites_launched.
  destruct (launched_files E never_stop iso w) as (Hout & Hnf & Hfs).
  fold out in Hout, Hfs. fold notfound in Hnf.
  destruct (websites_loop_reflected E (length websites) websites Hwf 0
              (launched E never_stop iso w))
    as (w1 & urls & rows & ds & -> & Hrefl & Hp & Ho & Hn & Hr & Ht & Hl);
    [reflexivity|congruence|].
  rewrite Hout in Ho, Hr, Ht. rewrite Hnf in Hn, Hl.
  assert (Hfile_out : file (launched E never_stop iso w) out = [Text header]).
  { unfold file. now rewrite Hfs, lookup_insert_eq. }
  assert (Hfile_nf : file (launched E never_stop iso w) notfound = file w notfound).
  { unfold file. now rewrite Hfs, lookup_insert_ne. }
  rewrite Hfile_out in Hr, Ht. rewrite Hfile_nf in Hl.
  exists (loop_exit w1), urls, rows, ds.
  split; [reflexivity|]. split; [exact Hrefl|].
  change (file (loop_exit w1)) with (file w1). simpl. auto 10.
Qed.

(** C2. Let the first stop request be served after record [k] and before
    record [k + 1], records [0] to [k] being well formed. Then the run
    returns, and its outputs are those of records [0] to [k], as the
    specification describes them, and of no other record: the probes made
    are theirs, in order; the matched output holds the header and their
    rows; the unmatched output has grown by their domains. The flag is
    false afterwards, and the last progress event is
    ["Scraping complete."]. *)
Theorem cancellation_after_record (E : Env) (sched : Schedule) (iso : string)
    (websites : list CsvRecord) (k : nat) (w : World) :
  k < length websites ->
  stop_at_launch sched = false ->
  (forall j, j < k -> stop_after sched j = false) ->
  stop_after sched k = true ->
  Forall (well_formed E) (take (S k) websites) ->
  let out := path_join (downloadDir E) ("Emails_" +:+ dashes iso +:+ ".csv") in
  let notfound := path_join (downloadDir E) ("Notfound_" +:+ dashes iso +:+ ".txt") in
  exists (w' : World) (urls : list string) (rows : list OutRow) (domains : list string),
    scrapeWebsites E sched iso websites w = (Ok tt, w') /\
    reflected E (length (probes w)) (take (S k) websites) urls rows domains /\
    probes w' = probes w ++ urls /\
    lastOutputFile w' = out /\ lastNotFoundFile w' = notfound /\
    rows_of (file w' out) = rows /\
    texts_of (file w' out) = [header] /\
    file w' notfound = file w notfound ++ ((fun domain => Text (line domain)) <$> domains) /\
    isScraping w' = false /\
    last (published w') = Some "Scraping complete.".
Proof.
  intros Hk Hlaunch Hbefore Hstop Hwf out notfound.
  destruct (stopped_run_like_prefix E sched iso websites k w Hk Hlaunch Hbefore Hstop)
    as (Hres & Ho & Hn & Hfs & Hp & _ & Hdone).
  destruct (Hdone Hwf) as (Hok & Hflag & Hlast).
  destruct (run_reflected E iso (take (S k) websites) w Hwf)
    as (w1 & urls & rows & ds & Hrun & Hrefl & Hp1 & Ho1 & Hn1 & Hr1 & Ht1 & Hl1).
  fold out in Ho1, Hr1, Ht1. fold notfound in Hn1, Hl1.
  rewrite Hrun in Hres, Ho, Hn, Hfs, Hp. simpl in Hres, Ho, Hn, Hfs, Hp.
  destruct (scrapeWebsites E sched iso websites w) as [r w'] eqn:Hstopped.
  simpl in *. subst r.
  exists w', urls, rows, ds.
  split; [reflexivity|]. split; [exact Hrefl|].
  unfold file in *. rewrite Hfs, Hp, Ho, Hn. auto 10.
Qed.

Lemma cancellation_after_record_witness :
  let E := demo_env [("https://a.example", page_with ["mailto:info@a.example"])] in
  let websites := [ business "First" "1 Main St" "https://a.example";
                    business "Second" "2 Main St" "https://b.example";
                    business "Third" "3 Main St" "https://a.example" ] in
  let sched := mkSchedule false (fun i => Nat.eqb i 1) in
  let out := path_join (downloadDir E) ("Emails_" +:+ dashes demo_iso +:+ ".csv") in
  let notfound := path_join (downloadDir E) ("Notfound_" +:+ dashes demo_iso +:+ ".txt") in
  exists (w' : World) (urls : list string) (rows : list OutRow) (domains : list string),
    scrapeWebsites E sched demo_iso websites idle = (Ok tt, w') /\
    reflected E (length (probes idle)) (take 2 websites) urls rows domains /\
    probes w' = probes idle ++ urls /\
    lastOutputFile w' = out /\ lastNotFoundFile w' = notfound /\
    rows_of (file w' out) = rows /\
    texts_of (file w' out) = [header] /\
    file w' notfound = file idle notfound ++ ((fun domain => Text (line domain)) <$> domains) /\
    isScraping w' = false /\
    last (published w') = Some "Scraping complete.".
Proof.
  intros E websites sched.
  apply (cancellation_after_record E sched demo_iso websites 1 idle).
  - simpl. lia.
  - reflexivity.
  - intros [|j] Hj; [reflexivity|lia].
  - reflexivity.
  - constructor; [|constructor; [|constructor]]; well_formed_demo.
Defined.

(** ** The specification's cleaning determines the address *)

Lemma split_before sep before after :
  Str.includes sep before = false ->
  after = EmptyString \/ Str.first_char after = Some sep ->
  exists pieces, Str.split sep (before +:+ after) = before :: pieces.
Proof.
  intros Hno Hafter. induction before as [|c before IH].
  - rewrite append_empty_l. destruct Hafter as [->|Hfirst]; [simpl; eauto|].
    destruct after as [|d after]; [discriminate|]. injection Hfirst as ->.
    simpl. rewrite Ascii.eqb_refl. eauto.
  - simpl in Hno. apply orb_false_iff in Hno as [Hc Hno].
    destruct (IH Hno) as [pieces Hsplit].
    rewrite append_cons. simpl. rewrite Hc, Hsplit. eauto.
Qed.

Lemma trimStart_spaces l s : Str.all_space l = true -> Str.trimStart (l +:+ s) = Str.trimStart s.
Proof.
  induction l as [|c l IH]; [reflexivity|].
  rewrite append_cons. simpl. intros [Hc Hl]%andb_true_iff. now rewrite Hc, IH.
Qed.

Lemma trimStart_all_space r : Str.all_space r = true -> Str.trimStart r = EmptyString.
Proof.
  induction r as [|c r IH]; [reflexivity|].
  simpl. intros [Hc Hr]%andb_true_iff. now rewrite Hc, IH.
Qed.

Lemma trimEnd_all_space r : Str.all_space r = true -> Str.trimEnd r = EmptyString.
Proof.
  induction r as [|c r IH]; [reflexivity|].
  simpl. intros [Hc Hr]%andb_true_iff. now rewrite IH, Hc.
Qed.

Lemma trimEnd_spaces a r : Str.all_space r = true -> Str.trimEnd (a +:+ r) = Str.trimEnd a.
Proof.
  intros Hr. induction a as [|c a IH].
  - rewrite append_empty_l. now apply trimEnd_all_space.
  - rewrite append_cons. cbn [Str.trimEnd]. now rewrite IH.
Qed.

(** The address the specification describes is the one [cleanEmail]
    computes, and no other. *)
Lemma before_query_trimmed_unique extracted address :
  before_query_trimmed extracted address -> address = cleanEmail extracted.
Proof.
  intros (before & after & l & r & -> & Hno & Hafter & -> & Hl & Hr & Hfirst & Hlast).
  unfold cleanEmail.
  destruct (split_before "?" _ after Hno Hafter) as [pieces ->].
  unfold Str.trim. rewrite (trimStart_spaces l _ Hl).
  destruct address as [|c address].
  - rewrite append_empty_l, (trimStart_all_space r Hr). reflexivity.
  - rewrite trimStart_id.
    + rewrite trimEnd_spaces by exact Hr. symmetry. now apply trimEnd_id.
    + rewrite append_cons. simpl. intros d [= <-]. now apply Hfirst.
Qed.

(** The surviving addresses are determined by the extracted ones. *)
Lemma survivors_unique emails addresses :
  survivors emails addresses -> addresses = cleanedEmails emails.
Proof.
  unfold cleanedEmails.
  induction 1 as [|e a rest kept Hclean Hat _ IH|e a rest kept Hclean Hat _ IH];
    [reflexivity| |];
    apply before_query_trimmed_unique in Hclean; subst a;
    cbn [fmap list_fmap List.filter]; rewrite Hat; now rewrite IH.
Qed.
